(** * A shallow embedding of the adsr~ envelope external

    The development follows [adsr~.cpp] (the later of the two iterations of
    the design, the one with the [Startup] phase and the function-pointer
    dispatch).  The object structure is a record, the phase enumeration an
    inductive type, the per-phase evaluation functions are selected by a
    defunctionalised function pointer, and every C++ function keeps its name.

    Numbers.  A [double] is modelled by an exact rational ([Q]): the model is
    the idealised real arithmetic the specification is phrased in, with no
    rounding, no NaN and no infinity.  The one place where IEEE arithmetic
    leaves the reals is a division by zero, which yields NaN or an infinity;
    the model makes it explicit through [int_div], which fails ([None]) on a
    zero divisor, and threads the failure through a small error monad.
    [std::pow] is not a rational function; it is a variable of the section,
    with the three facts about it that some theorems use as hypotheses.

    Rounding.  Two results of the code depend on the rounding of the double
    operations: the sample count a time setter derives (a product of two
    doubles, truncated) and the lower end of the shape exponents
    ([1.0 + (-1.0) * 0.9]).  A theorem about either is stated with the
    relative error of the double operations allowed for ([rounding_slack]),
    so that it holds of what the code stores and not only of the exact
    product; the module [Doubles] evaluates the same expressions in IEEE
    binary64 and shows where the two part.

    An [int] is modelled by [Z].  The only conversion to [int] is
    [static_cast<int>] of a product of a time in [0, 10000] and the sample
    rate per millisecond, which fits 32 bits for every sample rate up to
    2^31 / 10 Hz (lemma [static_cast_int_fits]); beyond that the C++
    conversion is undefined and the model says nothing.  The sample counter
    never exceeds the sample count of its phase, so it does not wrap. *)

From Stdlib Require Import ZArith QArith Qround Qabs Qpower Bool List Lia Lqa.
From Stdlib Require Import Morphisms Floats.
Import ListNotations.

Local Open Scope Q_scope.

(** ** Numeric helpers *)

(** [a < b] on doubles, as a boolean. *)
Definition Qltb (a b : Q) : bool := negb (Qle_bool b a).

(** [std::clamp(v, lo, hi)]: [(v < lo) ? lo : (hi < v) ? hi : v]. *)
Definition clamp (v lo hi : Q) : Q :=
  if Qltb v lo then lo else if Qltb hi v then hi else v.

(** [static_cast<int>(d)]: truncation toward zero. *)
Definition static_cast_int (d : Q) : Z :=
  if Qle_bool 0 d then Qfloor d else Qceiling d.

(** [INT_MAX] of a 32-bit [int]. *)
Definition INT_MAX : Z := 2147483647.

(** The error monad of the render path: [None] is a division by zero. *)
Definition ret {A : Type} (a : A) : option A := Some a.

Definition bind {A B : Type} (m : option A) (k : A -> option B) : option B :=
  match m with
  | Some a => k a
  | None => None
  end.

Notation "x <- m ;; k" := (bind m (fun x => k))
  (at level 61, m at next level, right associativity).

(** [static_cast<double>(n) / d] for two [int]s: the quotient, unless the
    divisor is zero. *)
Definition int_div (n d : Z) : option Q :=
  if (d =? 0)%Z then None else Some (inject_Z n / inject_Z d).

(** ** The data model *)

(** [enum class t_adsr_phase]. *)
Inductive t_adsr_phase : Type :=
  | Idle
  | Startup
  | Attack
  | Decay
  | Sustain
  | Release.

(** [adsr_phase_ptr]: the address of one of the six phase functions. *)
Inductive adsr_phase_ptr : Type :=
  | ptr_startupPhase
  | ptr_attackPhase
  | ptr_decayPhase
  | ptr_sustainPhase
  | ptr_releasePhase
  | ptr_idlePhase.

(** [struct t_adsr_tilde], without the two fields of the host
    ([x_obj], [x_out]). *)
Record t_adsr_tilde : Type := mk_adsr {
  phase : t_adsr_phase;
  phaseFunc : adsr_phase_ptr;
  samplerate : Q;
  sampleratems : Q;
  attackTime : Q;
  decayTime : Q;
  sustainLevel : Q;
  releaseTime : Q;
  attackShape : Q;
  releaseShape : Q;
  currentEnv : Q;
  phaseStartEnv : Q;
  startAtCurrentEnv : bool;
  attackPhaseSamples : Z;
  decayPhaseSamples : Z;
  releasePhaseSamples : Z;
  startupPhaseSamples : Z;
  currentSample : Z;
  gain : Q
}.

Definition set_phase (x : t_adsr_tilde) (v : t_adsr_phase) : t_adsr_tilde :=
  {| phase := v; phaseFunc := phaseFunc x; samplerate := samplerate x;
     sampleratems := sampleratems x; attackTime := attackTime x;
     decayTime := decayTime x; sustainLevel := sustainLevel x;
     releaseTime := releaseTime x; attackShape := attackShape x;
     releaseShape := releaseShape x; currentEnv := currentEnv x;
     phaseStartEnv := phaseStartEnv x; startAtCurrentEnv := startAtCurrentEnv x;
     attackPhaseSamples := attackPhaseSamples x;
     decayPhaseSamples := decayPhaseSamples x;
     releasePhaseSamples := releasePhaseSamples x;
     startupPhaseSamples := startupPhaseSamples x; currentSample := currentSample x;
     gain := gain x |}.

Definition set_phaseFunc (x : t_adsr_tilde) (v : adsr_phase_ptr) : t_adsr_tilde :=
  {| phase := phase x; phaseFunc := v; samplerate := samplerate x;
     sampleratems := sampleratems x; attackTime := attackTime x;
     decayTime := decayTime x; sustainLevel := sustainLevel x;
     releaseTime := releaseTime x; attackShape := attackShape x;
     releaseShape := releaseShape x; currentEnv := currentEnv x;
     phaseStartEnv := phaseStartEnv x; startAtCurrentEnv := startAtCurrentEnv x;
     attackPhaseSamples := attackPhaseSamples x;
     decayPhaseSamples := decayPhaseSamples x;
     releasePhaseSamples := releasePhaseSamples x;
     startupPhaseSamples := startupPhaseSamples x; currentSample := currentSample x;
     gain := gain x |}.

Definition set_samplerate (x : t_adsr_tilde) (v : Q) : t_adsr_tilde :=
  {| phase := phase x; phaseFunc := phaseFunc x; samplerate := v;
     sampleratems := sampleratems x; attackTime := attackTime x;
     decayTime := decayTime x; sustainLevel := sustainLevel x;
     releaseTime := releaseTime x; attackShape := attackShape x;
     releaseShape := releaseShape x; currentEnv := currentEnv x;
     phaseStartEnv := phaseStartEnv x; startAtCurrentEnv := startAtCurrentEnv x;
     attackPhaseSamples := attackPhaseSamples x;
     decayPhaseSamples := decayPhaseSamples x;
     releasePhaseSamples := releasePhaseSamples x;
     startupPhaseSamples := startupPhaseSamples x; currentSample := currentSample x;
     gain := gain x |}.

Definition set_sampleratems (x : t_adsr_tilde) (v : Q) : t_adsr_tilde :=
  {| phase := phase x; phaseFunc := phaseFunc x; samplerate := samplerate x;
     sampleratems := v; attackTime := attackTime x; decayTime := decayTime x;
     sustainLevel := sustainLevel x; releaseTime := releaseTime x;
     attackShape := attackShape x; releaseShape := releaseShape x;
     currentEnv := currentEnv x; phaseStartEnv := phaseStartEnv x;
     startAtCurrentEnv := startAtCurrentEnv x;
     attackPhaseSamples := attackPhaseSamples x;
     decayPhaseSamples := decayPhaseSamples x;
     releasePhaseSamples := releasePhaseSamples x;
     startupPhaseSamples := startupPhaseSamples x; currentSample := currentSample x;
     gain := gain x |}.

Definition set_attackTime (x : t_adsr_tilde) (v : Q) : t_adsr_tilde :=
  {| phase := phase x; phaseFunc := phaseFunc x; samplerate := samplerate x;
     sampleratems := sampleratems x; attackTime := v; decayTime := decayTime x;
     sustainLevel := sustainLevel x; releaseTime := releaseTime x;
     attackShape := attackShape x; releaseShape := releaseShape x;
     currentEnv := currentEnv x; phaseStartEnv := phaseStartEnv x;
     startAtCurrentEnv := startAtCurrentEnv x;
     attackPhaseSamples := attackPhaseSamples x;
     decayPhaseSamples := decayPhaseSamples x;
     releasePhaseSamples := releasePhaseSamples x;
     startupPhaseSamples := startupPhaseSamples x; currentSample := currentSample x;
     gain := gain x |}.

Definition set_decayTime (x : t_adsr_tilde) (v : Q) : t_adsr_tilde :=
  {| phase := phase x; phaseFunc := phaseFunc x; samplerate := samplerate x;
     sampleratems := sampleratems x; attackTime := attackTime x; decayTime := v;
     sustainLevel := sustainLevel x; releaseTime := releaseTime x;
     attackShape := attackShape x; releaseShape := releaseShape x;
     currentEnv := currentEnv x; phaseStartEnv := phaseStartEnv x;
     startAtCurrentEnv := startAtCurrentEnv x;
     attackPhaseSamples := attackPhaseSamples x;
     decayPhaseSamples := decayPhaseSamples x;
     releasePhaseSamples := releasePhaseSamples x;
     startupPhaseSamples := startupPhaseSamples x; currentSample := currentSample x;
     gain := gain x |}.

Definition set_sustainLevel (x : t_adsr_tilde) (v : Q) : t_adsr_tilde :=
  {| phase := phase x; phaseFunc := phaseFunc x; samplerate := samplerate x;
     sampleratems := sampleratems x; attackTime := attackTime x;
     decayTime := decayTime x; sustainLevel := v; releaseTime := releaseTime x;
     attackShape := attackShape x; releaseShape := releaseShape x;
     currentEnv := currentEnv x; phaseStartEnv := phaseStartEnv x;
     startAtCurrentEnv := startAtCurrentEnv x;
     attackPhaseSamples := attackPhaseSamples x;
     decayPhaseSamples := decayPhaseSamples x;
     releasePhaseSamples := releasePhaseSamples x;
     startupPhaseSamples := startupPhaseSamples x; currentSample := currentSample x;
     gain := gain x |}.

Definition set_releaseTime (x : t_adsr_tilde) (v : Q) : t_adsr_tilde :=
  {| phase := phase x; phaseFunc := phaseFunc x; samplerate := samplerate x;
     sampleratems := sampleratems x; attackTime := attackTime x;
     decayTime := decayTime x; sustainLevel := sustainLevel x; releaseTime := v;
     attackShape := attackShape x; releaseShape := releaseShape x;
     currentEnv := currentEnv x; phaseStartEnv := phaseStartEnv x;
     startAtCurrentEnv := startAtCurrentEnv x;
     attackPhaseSamples := attackPhaseSamples x;
     decayPhaseSamples := decayPhaseSamples x;
     releasePhaseSamples := releasePhaseSamples x;
     startupPhaseSamples := startupPhaseSamples x; currentSample := currentSample x;
     gain := gain x |}.

Definition set_attackShape (x : t_adsr_tilde) (v : Q) : t_adsr_tilde :=
  {| phase := phase x; phaseFunc := phaseFunc x; samplerate := samplerate x;
     sampleratems := sampleratems x; attackTime := attackTime x;
     decayTime := decayTime x; sustainLevel := sustainLevel x;
     releaseTime := releaseTime x; attackShape := v; releaseShape := releaseShape x;
     currentEnv := currentEnv x; phaseStartEnv := phaseStartEnv x;
     startAtCurrentEnv := startAtCurrentEnv x;
     attackPhaseSamples := attackPhaseSamples x;
     decayPhaseSamples := decayPhaseSamples x;
     releasePhaseSamples := releasePhaseSamples x;
     startupPhaseSamples := startupPhaseSamples x; currentSample := currentSample x;
     gain := gain x |}.

Definition set_releaseShape (x : t_adsr_tilde) (v : Q) : t_adsr_tilde :=
  {| phase := phase x; phaseFunc := phaseFunc x; samplerate := samplerate x;
     sampleratems := sampleratems x; attackTime := attackTime x;
     decayTime := decayTime x; sustainLevel := sustainLevel x;
     releaseTime := releaseTime x; attackShape := attackShape x; releaseShape := v;
     currentEnv := currentEnv x; phaseStartEnv := phaseStartEnv x;
     startAtCurrentEnv := startAtCurrentEnv x;
     attackPhaseSamples := attackPhaseSamples x;
     decayPhaseSamples := decayPhaseSamples x;
     releasePhaseSamples := releasePhaseSamples x;
     startupPhaseSamples := startupPhaseSamples x; currentSample := currentSample x;
     gain := gain x |}.

Definition set_currentEnv (x : t_adsr_tilde) (v : Q) : t_adsr_tilde :=
  {| phase := phase x; phaseFunc := phaseFunc x; samplerate := samplerate x;
     sampleratems := sampleratems x; attackTime := attackTime x;
     decayTime := decayTime x; sustainLevel := sustainLevel x;
     releaseTime := releaseTime x; attackShape := attackShape x;
     releaseShape := releaseShape x; currentEnv := v; phaseStartEnv := phaseStartEnv x;
     startAtCurrentEnv := startAtCurrentEnv x;
     attackPhaseSamples := attackPhaseSamples x;
     decayPhaseSamples := decayPhaseSamples x;
     releasePhaseSamples := releasePhaseSamples x;
     startupPhaseSamples := startupPhaseSamples x; currentSample := currentSample x;
     gain := gain x |}.

Definition set_phaseStartEnv (x : t_adsr_tilde) (v : Q) : t_adsr_tilde :=
  {| phase := phase x; phaseFunc := phaseFunc x; samplerate := samplerate x;
     sampleratems := sampleratems x; attackTime := attackTime x;
     decayTime := decayTime x; sustainLevel := sustainLevel x;
     releaseTime := releaseTime x; attackShape := attackShape x;
     releaseShape := releaseShape x; currentEnv := currentEnv x; phaseStartEnv := v;
     startAtCurrentEnv := startAtCurrentEnv x;
     attackPhaseSamples := attackPhaseSamples x;
     decayPhaseSamples := decayPhaseSamples x;
     releasePhaseSamples := releasePhaseSamples x;
     startupPhaseSamples := startupPhaseSamples x; currentSample := currentSample x;
     gain := gain x |}.

Definition set_startAtCurrentEnv (x : t_adsr_tilde) (v : bool) : t_adsr_tilde :=
  {| phase := phase x; phaseFunc := phaseFunc x; samplerate := samplerate x;
     sampleratems := sampleratems x; attackTime := attackTime x;
     decayTime := decayTime x; sustainLevel := sustainLevel x;
     releaseTime := releaseTime x; attackShape := attackShape x;
     releaseShape := releaseShape x; currentEnv := currentEnv x;
     phaseStartEnv := phaseStartEnv x; startAtCurrentEnv := v;
     attackPhaseSamples := attackPhaseSamples x;
     decayPhaseSamples := decayPhaseSamples x;
     releasePhaseSamples := releasePhaseSamples x;
     startupPhaseSamples := startupPhaseSamples x; currentSample := currentSample x;
     gain := gain x |}.

Definition set_attackPhaseSamples (x : t_adsr_tilde) (v : Z) : t_adsr_tilde :=
  {| phase := phase x; phaseFunc := phaseFunc x; samplerate := samplerate x;
     sampleratems := sampleratems x; attackTime := attackTime x;
     decayTime := decayTime x; sustainLevel := sustainLevel x;
     releaseTime := releaseTime x; attackShape := attackShape x;
     releaseShape := releaseShape x; currentEnv := currentEnv x;
     phaseStartEnv := phaseStartEnv x; startAtCurrentEnv := startAtCurrentEnv x;
     attackPhaseSamples := v; decayPhaseSamples := decayPhaseSamples x;
     releasePhaseSamples := releasePhaseSamples x;
     startupPhaseSamples := startupPhaseSamples x; currentSample := currentSample x;
     gain := gain x |}.

Definition set_decayPhaseSamples (x : t_adsr_tilde) (v : Z) : t_adsr_tilde :=
  {| phase := phase x; phaseFunc := phaseFunc x; samplerate := samplerate x;
     sampleratems := sampleratems x; attackTime := attackTime x;
     decayTime := decayTime x; sustainLevel := sustainLevel x;
     releaseTime := releaseTime x; attackShape := attackShape x;
     releaseShape := releaseShape x; currentEnv := currentEnv x;
     phaseStartEnv := phaseStartEnv x; startAtCurrentEnv := startAtCurrentEnv x;
     attackPhaseSamples := attackPhaseSamples x; decayPhaseSamples := v;
     releasePhaseSamples := releasePhaseSamples x;
     startupPhaseSamples := startupPhaseSamples x; currentSample := currentSample x;
     gain := gain x |}.

Definition set_releasePhaseSamples (x : t_adsr_tilde) (v : Z) : t_adsr_tilde :=
  {| phase := phase x; phaseFunc := phaseFunc x; samplerate := samplerate x;
     sampleratems := sampleratems x; attackTime := attackTime x;
     decayTime := decayTime x; sustainLevel := sustainLevel x;
     releaseTime := releaseTime x; attackShape := attackShape x;
     releaseShape := releaseShape x; currentEnv := currentEnv x;
     phaseStartEnv := phaseStartEnv x; startAtCurrentEnv := startAtCurrentEnv x;
     attackPhaseSamples := attackPhaseSamples x;
     decayPhaseSamples := decayPhaseSamples x; releasePhaseSamples := v;
     startupPhaseSamples := startupPhaseSamples x; currentSample := currentSample x;
     gain := gain x |}.

Definition set_startupPhaseSamples (x : t_adsr_tilde) (v : Z) : t_adsr_tilde :=
  {| phase := phase x; phaseFunc := phaseFunc x; samplerate := samplerate x;
     sampleratems := sampleratems x; attackTime := attackTime x;
     decayTime := decayTime x; sustainLevel := sustainLevel x;
     releaseTime := releaseTime x; attackShape := attackShape x;
     releaseShape := releaseShape x; currentEnv := currentEnv x;
     phaseStartEnv := phaseStartEnv x; startAtCurrentEnv := startAtCurrentEnv x;
     attackPhaseSamples := attackPhaseSamples x;
     decayPhaseSamples := decayPhaseSamples x;
     releasePhaseSamples := releasePhaseSamples x; startupPhaseSamples := v;
     currentSample := currentSample x; gain := gain x |}.

Definition set_currentSample (x : t_adsr_tilde) (v : Z) : t_adsr_tilde :=
  {| phase := phase x; phaseFunc := phaseFunc x; samplerate := samplerate x;
     sampleratems := sampleratems x; attackTime := attackTime x;
     decayTime := decayTime x; sustainLevel := sustainLevel x;
     releaseTime := releaseTime x; attackShape := attackShape x;
     releaseShape := releaseShape x; currentEnv := currentEnv x;
     phaseStartEnv := phaseStartEnv x; startAtCurrentEnv := startAtCurrentEnv x;
     attackPhaseSamples := attackPhaseSamples x;
     decayPhaseSamples := decayPhaseSamples x;
     releasePhaseSamples := releasePhaseSamples x;
     startupPhaseSamples := startupPhaseSamples x; currentSample := v;
     gain := gain x |}.

Definition set_gain (x : t_adsr_tilde) (v : Q) : t_adsr_tilde :=
  {| phase := phase x; phaseFunc := phaseFunc x; samplerate := samplerate x;
     sampleratems := sampleratems x; attackTime := attackTime x;
     decayTime := decayTime x; sustainLevel := sustainLevel x;
     releaseTime := releaseTime x; attackShape := attackShape x;
     releaseShape := releaseShape x; currentEnv := currentEnv x;
     phaseStartEnv := phaseStartEnv x; startAtCurrentEnv := startAtCurrentEnv x;
     attackPhaseSamples := attackPhaseSamples x;
     decayPhaseSamples := decayPhaseSamples x;
     releasePhaseSamples := releasePhaseSamples x;
     startupPhaseSamples := startupPhaseSamples x; currentSample := currentSample x;
     gain := v |}.

(** [const int startupTime = 3]. *)
Definition startupTime : Z := 3.

(** [map_shape_to_exponent]. *)
Definition map_shape_to_exponent (f : Q) : Q :=
  let shape := clamp f (-1) 1 in
  if Qltb shape 0 then 1 + shape * 0.9 else 1 + shape * 9.

(** ** Parameter setters *)

Definition adsr_attack (x : t_adsr_tilde) (f : Q) : t_adsr_tilde :=
  let x := set_attackTime x (clamp f 0 10000) in
  set_attackPhaseSamples x
    (Z.max 1 (static_cast_int (attackTime x * sampleratems x))).

Definition adsr_decay (x : t_adsr_tilde) (f : Q) : t_adsr_tilde :=
  let x := set_decayTime x (clamp f 0 10000) in
  set_decayPhaseSamples x
    (Z.max 1 (static_cast_int (decayTime x * sampleratems x))).

Definition adsr_release (x : t_adsr_tilde) (f : Q) : t_adsr_tilde :=
  let t := if negb (startAtCurrentEnv x) then inject_Z startupTime else 0 in
  let x := set_releaseTime x (clamp (f - t) 0 10000) in
  set_releasePhaseSamples x
    (Z.max 1 (static_cast_int (releaseTime x * sampleratems x))).

Definition adsr_sustain (x : t_adsr_tilde) (f : Q) : t_adsr_tilde :=
  set_sustainLevel x (clamp f 0 1).

Definition adsr_attackshape (x : t_adsr_tilde) (f : Q) : t_adsr_tilde :=
  set_attackShape x (map_shape_to_exponent f).

Definition adsr_releaseshape (x : t_adsr_tilde) (f : Q) : t_adsr_tilde :=
  set_releaseShape x (map_shape_to_exponent f).

Definition adsr_g (x : t_adsr_tilde) (f : Q) : t_adsr_tilde :=
  set_gain x (clamp f 0 1).

(** [adsr_dsp], for a signal whose sample rate [s_sr] is [sr]; the
    registration of [adsr_perform] with the host is not modelled. *)
Definition adsr_dsp (x : t_adsr_tilde) (sr : Q) : t_adsr_tilde :=
  let x := set_samplerate x sr in
  let x := set_sampleratems x (samplerate x / 1000) in
  set_startupPhaseSamples x
    (Z.max 1 (static_cast_int (inject_Z startupTime * sampleratems x))).

(** The object as [pd_new] hands it to the constructor: the host allocates
    it zero-filled, so a field the constructor does not assign is 0. *)
Definition pd_new : t_adsr_tilde :=
  {| phase := Idle; phaseFunc := ptr_idlePhase; samplerate := 0;
     sampleratems := 0; attackTime := 0; decayTime := 0; sustainLevel := 0;
     releaseTime := 0; attackShape := 0; releaseShape := 0; currentEnv := 0;
     phaseStartEnv := 0; startAtCurrentEnv := false;
     attackPhaseSamples := 0; decayPhaseSamples := 0;
     releasePhaseSamples := 0; startupPhaseSamples := 0; currentSample := 0;
     gain := 0 |}.

(** [adsr_new]. *)
Definition adsr_new (f : Q) : t_adsr_tilde :=
  let x := pd_new in
  let x := set_startAtCurrentEnv x (Qeq_bool f 1) in
  let x := set_samplerate x 44100 in
  let x := set_sampleratems x 44.1 in
  let x := set_attackTime x 0.01 in
  let x := set_decayTime x 0.1 in
  let x := set_sustainLevel x 0.7 in
  let x := set_releaseTime x 0.2 in
  let x := set_attackShape x 2 in
  let x := set_releaseShape x 1 in
  let x := set_currentEnv x 0 in
  let x := set_gain x 1 in
  let x := set_phaseFunc x ptr_idlePhase in
  set_phase x Idle.

(** ** The phase engine *)

(** [enter_phase]: the phase, the function bound to it, and the counter. *)
Definition enter_phase (x : t_adsr_tilde) (newPhase : t_adsr_phase)
  : t_adsr_tilde :=
  let x := set_phase x newPhase in
  let x :=
    match newPhase with
    | Startup => set_phaseFunc x ptr_startupPhase
    | Attack => set_phaseFunc x ptr_attackPhase
    | Decay => set_phaseFunc x ptr_decayPhase
    | Sustain => set_phaseFunc x ptr_sustainPhase
    | Release => set_phaseFunc x ptr_releasePhase
    | Idle => set_phaseFunc x ptr_idlePhase
    end in
  set_currentSample x 0.

(** [adsr_trigger_start]. *)
Definition adsr_trigger_start (x : t_adsr_tilde) : t_adsr_tilde :=
  if negb (startAtCurrentEnv x) then
    let x := set_phaseStartEnv x (currentEnv x) in
    enter_phase x Startup
  else
    let x := set_phaseStartEnv x (currentEnv x) in
    enter_phase x Attack.

(** [x->phase != p]. *)
Definition phase_neqb (a b : t_adsr_phase) : bool :=
  match a, b with
  | Idle, Idle | Startup, Startup | Attack, Attack
  | Decay, Decay | Sustain, Sustain | Release, Release => false
  | _, _ => true
  end.

(** [adsr_trigger_stop]. *)
Definition adsr_trigger_stop (x : t_adsr_tilde) : t_adsr_tilde :=
  if phase_neqb (phase x) Idle && phase_neqb (phase x) Release then
    let x := set_phaseStartEnv x (currentEnv x) in
    enter_phase x Release
  else x.

(** ** The control path *)

(** The messages [adsr_tilde_setup] registers, each with its argument;
    [msg_dsp] carries the sample rate of the signal handed to [adsr_dsp]. *)
Inductive message : Type :=
  | msg_dsp (sr : Q)
  | msg_start
  | msg_stop
  | msg_attack (f : Q)
  | msg_decay (f : Q)
  | msg_sustain (f : Q)
  | msg_release (f : Q)
  | msg_attackshape (f : Q)
  | msg_releaseshape (f : Q)
  | msg_g (f : Q).

(** The method bound to each selector by [class_addmethod]. *)
Definition dispatch (x : t_adsr_tilde) (m : message) : t_adsr_tilde :=
  match m with
  | msg_dsp sr => adsr_dsp x sr
  | msg_start => adsr_trigger_start x
  | msg_stop => adsr_trigger_stop x
  | msg_attack f => adsr_attack x f
  | msg_decay f => adsr_decay x f
  | msg_sustain f => adsr_sustain x f
  | msg_release f => adsr_release x f
  | msg_attackshape f => adsr_attackshape x f
  | msg_releaseshape f => adsr_releaseshape x f
  | msg_g f => adsr_g x f
  end.

(** A list of messages, delivered in order. *)
Definition dispatch_all (x : t_adsr_tilde) (ms : list message) : t_adsr_tilde :=
  fold_left dispatch ms x.

(** ** The specification's formulas, for comparison with the code *)

(** [round] of the C library: to the nearest integer, halves away from
    zero. *)
Definition round_nearest (q : Q) : Z :=
  if Qle_bool 0 q then Qfloor (q + 0.5) else Qceiling (q - 0.5).

(** The specification's derivation rule for a phase's sample count:
    [max(1, round(timeMs * sampleRate / 1000))]. *)
Definition spec_phase_samples (timeMs sampleRate : Q) : Z :=
  Z.max 1 (round_nearest (timeMs * sampleRate / 1000)).

(** The rule the setters implement: the same product, truncated. *)
Definition trunc_phase_samples (timeMs sampleRate : Q) : Z :=
  Z.max 1 (static_cast_int (timeMs * sampleRate / 1000)).

(** ** Rounding of the double operations

    A correctly rounded double operation is within a relative error of
    2^-53 of the exact result; [rounding_slack], 2^-50, covers a chain of
    three. *)
Definition rounding_slack : Q := 1 # 1125899906842624.

(** [k] is the integer part of the non-negative product [p] as the code
    computes it: truncated toward zero, from a double that is [p] up to
    rounding.  So [k] never exceeds [p] by more than the rounding, and is
    less than one below it. *)
Definition truncation_of (p : Q) (k : Z) : Prop :=
  p * (1 - rounding_slack) - 1 < inject_Z k /\
  inject_Z k <= p * (1 + rounding_slack).

(** The sample rates for which the conversion of the product to [int] is
    defined for every time up to 10000 ms: up to (2^31 - 1) / 10 Hz. *)
Definition max_samplerate : Q := inject_Z INT_MAX / 10.

(** [count] is the sample count the code derives from a time and a sample
    rate: [std::max(1, k)] for the truncated product [k], which fits an
    [int]. *)
Definition derived_count (count : Z) (timeMs sampleRate : Q) : Prop :=
  exists k : Z,
    count = Z.max 1 k /\ (0 <= k <= INT_MAX)%Z /\
    truncation_of (timeMs * sampleRate / 1000) k.

(** The defaults the specification documents for a new object. *)
Definition spec_defaults (x : t_adsr_tilde) : Prop :=
  attackTime x == 0.01 /\ decayTime x == 100 /\ sustainLevel x == 0.7 /\
  releaseTime x == 200 /\ attackShape x == 1 /\ releaseShape x == 1 /\
  gain x == 1 /\ phase x = Idle /\ currentEnv x == 0.

(** ** The setters' arithmetic in IEEE doubles

    The expressions of the setters whose result depends on rounding,
    written with the primitive binary64 operations. *)
Module Doubles.

(** [std::clamp(v, lo, hi)] on doubles. *)
Definition clamp (v lo hi : float) : float :=
  if (v <? lo)%float then lo else if (hi <? v)%float then hi else v.

(** [map_shape_to_exponent]. *)
#[warnings="-inexact-float"] Definition map_shape_to_exponent (f : float)
  : float :=
  let shape := clamp f (-1)%float 1%float in
  if (shape <? 0)%float then (1 + shape * 0.9)%float
  else (1 + shape * 9)%float.

(** The rational a finite double stands for. *)
Definition to_Q (d : float) : option Q :=
  match Prim2SF d with
  | S754_zero _ => Some 0
  | S754_finite s m e =>
      Some (inject_Z (if s then Z.neg m else Z.pos m) * 2 ^ e)
  | S754_infinity _ | S754_nan => None
  end.

(** [static_cast<int>(d)]: truncation toward zero; undefined ([None]) for a
    NaN, an infinity and a value whose integer part does not fit an
    [int]. *)
Definition static_cast_int (d : float) : option Z :=
  match to_Q d with
  | Some q =>
      let k := Z.quot (Qnum q) (Z.pos (Qden q)) in
      if ((- INT_MAX - 1 <=? k) && (k <=? INT_MAX))%Z then Some k else None
  | None => None
  end.

(** [x->samplerate / 1000] of [adsr_dsp]. *)
Definition sampleratems (samplerate : float) : float :=
  (samplerate / 1000)%float.

(** [std::max(1, static_cast<int>(time * x->sampleratems))] of the time
    setters. *)
Definition phase_samples (time srms : float) : option Z :=
  option_map (Z.max 1) (static_cast_int (time * srms)%float).

(** [std::max(1, static_cast<int>((time / 1000) * x->samplerate))] of the
    time setters of the first iteration. *)
Definition phase_samples_v1 (time samplerate : float) : option Z :=
  option_map (Z.max 1) (static_cast_int (time / 1000 * samplerate)%float).

End Doubles.

(** ** Configurations used in the examples *)

(** The end-to-end scenario of the specification: 44100 Hz, attack 10 ms,
    decay 100 ms, sustain 0.7, release 200 ms, linear shapes, gain 1. *)
Definition scenario_messages : list message :=
  [msg_dsp 44100; msg_attack 10; msg_decay 100; msg_sustain 0.7;
   msg_release 200; msg_attackshape 0; msg_releaseshape 0; msg_g 1].

(** The scenario on an object created with argument 1, which attacks from
    the current value, triggered. *)
Definition scenario_started : t_adsr_tilde :=
  dispatch_all (adsr_new 1) (scenario_messages ++ [msg_start]).

(** The same parameters with release time 0, on an object created with
    argument 0, started and stopped. *)
Definition zero_release_messages : list message :=
  [msg_dsp 44100; msg_attack 10; msg_decay 100; msg_sustain 0.7;
   msg_release 0; msg_attackshape 0; msg_releaseshape 0; msg_g 1;
   msg_start; msg_stop].

(** A power function on rationals, exact at integer exponents (other
    exponents are rounded up): an instance of the section's [pow]. *)
Definition pow_int (a s : Q) : Q := a ^ Qceiling s.

Section Render.

(** [std::pow] on doubles, and what the theorems on shaped curves use of it:
    it respects equality of its base, [pow(0, s)] is 0 for a positive
    exponent, and [pow(1, s)] is 1. *)
Variable pow : Q -> Q -> Q.

Hypothesis pow_comp : forall a a' s, a == a' -> pow a s == pow a' s.
Hypothesis pow_zero : forall s, 0 < s -> pow 0 s == 0.
Hypothesis pow_one : forall s, pow 1 s == 1.

(** [power_lerp]: shaped interpolation from [start] to [end_]. *)
Definition power_lerp (start end_ p shape : Q) : Q :=
  if Qeq_bool shape 1 then start + (end_ - start) * p
  else
    let curved :=
      if Qltb end_ start then 1 - pow (1 - p) shape else pow p shape in
    start + (end_ - start) * curved.

Definition startupPhase (x : t_adsr_tilde) : option t_adsr_tilde :=
  p <- int_div (currentSample x) (startupPhaseSamples x) ;;
  let x := set_currentEnv x (power_lerp (phaseStartEnv x) 0 p 1) in
  let x := set_currentSample x (currentSample x + 1)%Z in
  if (startupPhaseSamples x <=? currentSample x)%Z then
    let x := set_phaseStartEnv x 0 in
    ret (enter_phase x Attack)
  else ret x.

Definition attackPhase (x : t_adsr_tilde) : option t_adsr_tilde :=
  p <- int_div (currentSample x) (attackPhaseSamples x) ;;
  let x := set_currentEnv x (power_lerp (phaseStartEnv x) 1 p (attackShape x)) in
  let x := set_currentSample x (currentSample x + 1)%Z in
  if (attackPhaseSamples x <=? currentSample x)%Z then
    ret (enter_phase x Decay)
  else ret x.

Definition decayPhase (x : t_adsr_tilde) : option t_adsr_tilde :=
  p <- int_div (currentSample x) (decayPhaseSamples x) ;;
  let x := set_currentEnv x ((1 - p) * (1 - sustainLevel x) + sustainLevel x) in
  let x := set_currentSample x (currentSample x + 1)%Z in
  if (decayPhaseSamples x <=? currentSample x)%Z then
    ret (enter_phase x Sustain)
  else ret x.

Definition sustainPhase (x : t_adsr_tilde) : option t_adsr_tilde :=
  ret (set_currentEnv x (sustainLevel x)).

Definition releasePhase (x : t_adsr_tilde) : option t_adsr_tilde :=
  p <- int_div (currentSample x) (releasePhaseSamples x - 1) ;;
  let x := set_currentEnv x (power_lerp (phaseStartEnv x) 0 p (releaseShape x)) in
  let x := set_currentSample x (currentSample x + 1)%Z in
  if (releasePhaseSamples x <=? currentSample x)%Z then
    ret (enter_phase x Idle)
  else ret x.

Definition idlePhase (x : t_adsr_tilde) : option t_adsr_tilde :=
  ret (set_currentEnv x 0).

(** [x->phaseFunc(x)]: the call through the function pointer. *)
Definition call_phaseFunc (x : t_adsr_tilde) : option t_adsr_tilde :=
  match phaseFunc x with
  | ptr_startupPhase => startupPhase x
  | ptr_attackPhase => attackPhase x
  | ptr_decayPhase => decayPhase x
  | ptr_sustainPhase => sustainPhase x
  | ptr_releasePhase => releasePhase x
  | ptr_idlePhase => idlePhase x
  end.

(** [adsr_perform] for a block of [n] samples: the object after the block
    and the samples written to the outlet, first sample first. *)
Fixpoint adsr_perform (n : nat) (x : t_adsr_tilde)
  : option (t_adsr_tilde * list Q) :=
  match n with
  | O => ret (x, [])
  | S n' =>
      x1 <- call_phaseFunc x ;;
      r <- adsr_perform n' x1 ;;
      ret (fst r, currentEnv x1 * gain x1 :: snd r)
  end.

(** The objects the host can hold: a new object, after any number of
    messages and of rendered blocks. *)
Inductive reachable : t_adsr_tilde -> Prop :=
  | reach_new (f : Q) : reachable (adsr_new f)
  | reach_msg (x : t_adsr_tilde) (m : message) :
      reachable x -> reachable (dispatch x m)
  | reach_perform (x x' : t_adsr_tilde) (n : nat) (out : list Q) :
      reachable x -> adsr_perform n x = Some (x', out) -> reachable x'.

(** ** Notions the statements use *)

(** The sample budget of the phase in progress; [Sustain] and [Idle] have
    none. *)
Definition phase_samples (x : t_adsr_tilde) : Z :=
  match phaseFunc x with
  | ptr_startupPhase => startupPhaseSamples x
  | ptr_attackPhase => attackPhaseSamples x
  | ptr_decayPhase => decayPhaseSamples x
  | ptr_releasePhase => releasePhaseSamples x
  | ptr_sustainPhase | ptr_idlePhase => 0
  end.

(** Rendering reads the parameters and never writes them. *)
Definition same_params (x x' : t_adsr_tilde) : Prop :=
  samplerate x' = samplerate x /\ sampleratems x' = sampleratems x /\
  attackTime x' = attackTime x /\ decayTime x' = decayTime x /\
  sustainLevel x' = sustainLevel x /\ releaseTime x' = releaseTime x /\
  attackShape x' = attackShape x /\ releaseShape x' = releaseShape x /\
  startAtCurrentEnv x' = startAtCurrentEnv x /\
  attackPhaseSamples x' = attackPhaseSamples x /\
  decayPhaseSamples x' = decayPhaseSamples x /\
  releasePhaseSamples x' = releasePhaseSamples x /\
  startupPhaseSamples x' = startupPhaseSamples x /\ gain x' = gain x.

(** What a sample leaves alone besides the parameters while the phase lasts. *)
Definition same_phase (x x' : t_adsr_tilde) : Prop :=
  same_params x x' /\ phaseFunc x' = phaseFunc x /\ phase x' = phase x /\
  phaseStartEnv x' = phaseStartEnv x.

(** ** Facts about the numeric helpers *)

Lemma Qltb_lt (a b : Q) : Qltb a b = true <-> a < b.
Proof.
  unfold Qltb. rewrite negb_true_iff, <- not_true_iff_false, Qle_bool_iff.
  split; [apply Qnot_le_lt | apply Qlt_not_le].
Qed.

Lemma Qltb_ge (a b : Q) : Qltb a b = false <-> b <= a.
Proof.
  unfold Qltb. rewrite negb_false_iff. apply Qle_bool_iff.
Qed.

Lemma Qltb_comp : Proper (Qeq ==> Qeq ==> eq) Qltb.
Proof.
  intros a a' Ha b b' Hb. unfold Qltb. now rewrite Ha, Hb.
Qed.

Ltac case_Qltb a b :=
  let H := fresh "H" in
  destruct (Qltb a b) eqn:H;
  [apply Qltb_lt in H | apply Qltb_ge in H].

Lemma clamp_range (v lo hi : Q) : lo <= hi -> lo <= clamp v lo hi <= hi.
Proof.
  intros Hb. unfold clamp.
  case_Qltb v lo; [lra |]. case_Qltb hi v; lra.
Qed.

Lemma clamp_fixed (v lo hi : Q) : lo <= v <= hi -> clamp v lo hi = v.
Proof.
  intros [Hlo Hhi]. unfold clamp.
  case_Qltb v lo; [lra |]. case_Qltb hi v; [lra | reflexivity].
Qed.

Lemma clamp_comp (v v' lo hi : Q) : v == v' -> clamp v lo hi == clamp v' lo hi.
Proof.
  intros Hv. unfold clamp.
  rewrite (Qltb_comp v v' Hv lo lo (Qeq_refl lo)).
  rewrite (Qltb_comp hi hi (Qeq_refl hi) v v' Hv).
  destruct (Qltb v' lo); [reflexivity |].
  destruct (Qltb hi v'); [reflexivity | exact Hv].
Qed.

Lemma static_cast_int_comp (d d' : Q) :
  d == d' -> static_cast_int d = static_cast_int d'.
Proof.
  intros Hd. unfold static_cast_int.
  rewrite (Qleb_comp 0 0 (Qeq_refl 0) d d' Hd).
  destruct (Qle_bool 0 d');
    [apply Qfloor_comp | apply Qceiling_comp]; exact Hd.
Qed.

Lemma static_cast_int_floor (d : Q) : 0 <= d -> static_cast_int d = Qfloor d.
Proof.
  intros Hd. unfold static_cast_int.
  apply Qle_bool_iff in Hd. now rewrite Hd.
Qed.

(** Truncation never moves a number away from zero. *)
Lemma static_cast_int_nonneg (d : Q) : 0 <= d -> (0 <= static_cast_int d)%Z.
Proof.
  intros Hd. rewrite static_cast_int_floor by exact Hd.
  rewrite <- (Qfloor_Z 0). apply Qfloor_resp_le, Hd.
Qed.

(** The conversion is defined in C++ for every time a setter can store and
    every sample rate up to 2^31 / 10 Hz. *)
Lemma static_cast_int_fits (t srms : Q) :
  0 <= t <= 10000 -> 0 <= srms -> srms * 10000 <= inject_Z INT_MAX ->
  (0 <= static_cast_int (t * srms) <= INT_MAX)%Z.
Proof.
  intros Ht Hs Hmax.
  assert (H0 : 0 <= t * srms) by nra.
  split; [apply static_cast_int_nonneg, H0 |].
  rewrite static_cast_int_floor by exact H0.
  rewrite <- (Qfloor_Z INT_MAX). apply Qfloor_resp_le. nra.
Qed.

(** The range of the mapped exponent in exact arithmetic; the double the
    code stores at the lower end is one rounding below 0.1 (lemma
    [shape_exponent_below_tenth]), which the theorems on the stored
    exponents allow for. *)
Lemma map_shape_to_exponent_range (f : Q) :
  0.1 <= map_shape_to_exponent f <= 10.
Proof.
  unfold map_shape_to_exponent.
  assert (Hc : -1 <= clamp f (-1) 1 <= 1) by (apply clamp_range; lra).
  case_Qltb (clamp f (-1) 1) 0; lra.
Qed.

(** ** The parameter store *)

Lemma same_params_refl (x : t_adsr_tilde) : same_params x x.
Proof. repeat split. Qed.

Lemma same_params_trans (x y z : t_adsr_tilde) :
  same_params x y -> same_params y z -> same_params x z.
Proof.
  unfold same_params. intros Hxy Hyz.
  repeat match goal with H : _ /\ _ |- _ => destruct H end.
  repeat split; congruence.
Qed.

Ltac bind_inv H :=
  match type of H with
  | bind ?m _ = Some _ =>
      let E := fresh "E" in
      destruct m eqn:E; [cbn [bind] in H | discriminate H]
  end.

Lemma call_phaseFunc_params (x x' : t_adsr_tilde) :
  call_phaseFunc x = Some x' -> same_params x x'.
Proof.
  unfold call_phaseFunc, startupPhase, attackPhase, decayPhase, sustainPhase,
    releasePhase, idlePhase, ret.
  intros H.
  destruct (phaseFunc x); try bind_inv H;
    try match type of H with
        | (if ?c then _ else _) = _ => destruct c
        end;
    injection H as <-; repeat split.
Qed.

Lemma adsr_perform_params (n : nat) :
  forall x x' out, adsr_perform n x = Some (x', out) -> same_params x x'.
Proof.
  induction n as [| n IH]; intros x x' out H; cbn [adsr_perform] in H.
  - injection H as <- _. apply same_params_refl.
  - bind_inv H. bind_inv H. injection H as <- _.
    destruct p as [x2 out2]. cbn [fst].
    eapply same_params_trans;
      [eapply call_phaseFunc_params; eassumption | eapply IH; eassumption].
Qed.

(** The sample rate per millisecond follows the sample rate. *)
Lemma reachable_sampleratems (x : t_adsr_tilde) :
  reachable x -> sampleratems x == samplerate x / 1000.
Proof.
  induction 1 as [f | x m _ IH | x x' n out _ IH Hrun].
  - reflexivity.
  - destruct m; cbn [dispatch]; try exact IH.
    + reflexivity.
    + unfold adsr_trigger_start.
      destruct (negb (startAtCurrentEnv x)); exact IH.
    + unfold adsr_trigger_stop.
      destruct (phase_neqb (phase x) Idle && phase_neqb (phase x) Release);
        exact IH.
  - apply adsr_perform_params in Hrun.
    destruct Hrun as (Hsr & Hms & _). now rewrite Hsr, Hms.
Qed.

Lemma reachable_dispatch_all (ms : list message) :
  forall x, reachable x -> reachable (dispatch_all x ms).
Proof.
  induction ms as [| m ms IH]; intros x Hx; [exact Hx |].
  apply (IH (dispatch x m)), reach_msg, Hx.
Qed.

(** In exact arithmetic both shape exponents of an object the host can
    hold lie in [0.1, 10]: the constructor stores 2 and 1, the setters a
    mapped exponent. *)
Lemma reachable_shapes (x : t_adsr_tilde) :
  reachable x ->
  0.1 <= attackShape x <= 10 /\ 0.1 <= releaseShape x <= 10.
Proof.
  induction 1 as [f | x m _ IH | x x' n out _ IH Hrun].
  - cbn. lra.
  - pose proof (map_shape_to_exponent_range) as Hm.
    destruct m; cbn [dispatch]; try exact IH.
    + unfold adsr_trigger_start.
      destruct (negb (startAtCurrentEnv x)); exact IH.
    + unfold adsr_trigger_stop.
      destruct (phase_neqb (phase x) Idle && phase_neqb (phase x) Release);
        exact IH.
    + split; [apply Hm | apply IH].
    + split; [apply IH | apply Hm].
  - apply adsr_perform_params in Hrun. unfold same_params in Hrun.
    repeat match goal with H : _ /\ _ |- _ => destruct H end.
    split; split; cbn in *; congruence.
Qed.

(** Every count a setter or [adsr_dsp] stores is at least 1. *)
Lemma stored_counts_floor (x : t_adsr_tilde) (f : Q) :
  (1 <= attackPhaseSamples (adsr_attack x f))%Z /\
  (1 <= decayPhaseSamples (adsr_decay x f))%Z /\
  (1 <= releasePhaseSamples (adsr_release x f))%Z /\
  (1 <= startupPhaseSamples (adsr_dsp x f))%Z.
Proof.
  repeat split; cbn; apply Z.le_max_l.
Qed.

(** The count a setter derives from a stored time and the sample rate per
    millisecond is the truncated product. *)
Lemma static_cast_int_derived (t srms sr : Q) :
  0 <= t <= 10000 -> 0 <= sr <= max_samplerate -> srms == sr / 1000 ->
  derived_count (Z.max 1 (static_cast_int (t * srms))) t sr.
Proof.
  intros Ht Hsr Hms. change max_samplerate with (2147483647 # 10) in Hsr.
  assert (Hms' : srms == sr * (1 # 1000)) by (rewrite Hms; field).
  assert (Hp : t * srms == t * sr / 1000) by (rewrite Hms; field).
  assert (Hs : 0 <= srms) by lra.
  assert (H0 : 0 <= t * srms)
    by (apply Qmult_le_0_compat; [apply Ht | exact Hs]).
  exists (static_cast_int (t * srms)).
  split; [reflexivity |]. split.
  - apply static_cast_int_fits; [exact Ht | exact Hs |].
    change (inject_Z INT_MAX) with 2147483647. lra.
  - rewrite static_cast_int_floor by exact H0.
    pose proof (Qfloor_le (t * srms)) as Hle.
    pose proof (Qlt_floor (t * srms)) as Hlt.
    rewrite inject_Z_plus in Hlt. change (inject_Z 1) with 1 in Hlt.
    unfold truncation_of, rounding_slack. rewrite <- Hp.
    remember (t * srms) as p eqn:Ep. clear Ep.
    remember (inject_Z (Qfloor p)) as k eqn:Ek. clear Ek.
    split; lra.
Qed.

(** Away from the integers the truncated product is the integer part of
    the exact product: the rounding can move the count only when the
    product is within the rounding of an integer. *)
Lemma truncation_of_exact (p : Q) (k : Z) :
  truncation_of p k ->
  inject_Z (Qfloor p) <= p * (1 - rounding_slack) ->
  p * (1 + rounding_slack) < inject_Z (Qfloor p) + 1 ->
  k = Qfloor p.
Proof.
  unfold truncation_of. intros [Hlo Hhi] Hfl Hce.
  assert (H1 : inject_Z k < inject_Z (Qfloor p + 1))
    by (rewrite inject_Z_plus; change (inject_Z 1) with 1; lra).
  assert (H2 : inject_Z (Qfloor p - 1) < inject_Z k).
  { unfold Z.sub. rewrite inject_Z_plus.
    change (inject_Z (- (1))) with (-1 # 1). lra. }
  rewrite <- Zlt_Qlt in H1, H2. lia.
Qed.

(** C4, as amended.  For every object the host can hold and every sample
    rate from 0 to (2^31 - 1) / 10 Hz, each time setter stores, with a time
    in [0, 10000], the sample count [max(1, k)], where [k] is the product of
    that time and the sample rate per millisecond truncated toward zero, and
    [adsr_dsp] stores the same count for the 3 ms startup time.  The
    product is truncated, not rounded: [k] fits an [int], is less than one
    below [timeMs * sampleRate / 1000] and exceeds it by no more than the
    rounding of the double product. *)
Theorem phase_samples_truncated (x : t_adsr_tilde) (f sr : Q) :
  reachable x ->
  0 <= samplerate x <= max_samplerate -> 0 <= sr <= max_samplerate ->
  (derived_count (attackPhaseSamples (adsr_attack x f))
     (attackTime (adsr_attack x f)) (samplerate x)
   /\ 0 <= attackTime (adsr_attack x f) <= 10000) /\
  (derived_count (decayPhaseSamples (adsr_decay x f))
     (decayTime (adsr_decay x f)) (samplerate x)
   /\ 0 <= decayTime (adsr_decay x f) <= 10000) /\
  (derived_count (releasePhaseSamples (adsr_release x f))
     (releaseTime (adsr_release x f)) (samplerate x)
   /\ 0 <= releaseTime (adsr_release x f) <= 10000) /\
  derived_count (startupPhaseSamples (adsr_dsp x sr))
    (inject_Z startupTime) sr.
Proof.
  intros Hx Hsr Hsr'. apply reachable_sampleratems in Hx.
  assert (Hc : forall v, 0 <= clamp v 0 10000 <= 10000)
    by (intros v; apply clamp_range; lra).
  repeat match goal with |- _ /\ _ => split end;
    try (cbn; apply Hc);
    try (cbn; apply static_cast_int_derived; [apply Hc | exact Hsr | exact Hx]).
  cbn. apply static_cast_int_derived; [| exact Hsr' | reflexivity].
  change (inject_Z startupTime) with 3. lra.
Qed.

(** C5, as amended.  A new object holds attack time 0.01, decay time 0.1 and
    release time 0.2 (the fields the setters fill in milliseconds), sustain
    level 0.7, attack shape exponent 2, release shape exponent 1, gain 1,
    and is idle with envelope value 0. *)
Theorem adsr_new_defaults (f : Q) :
  attackTime (adsr_new f) = 0.01 /\ decayTime (adsr_new f) = 0.1 /\
  sustainLevel (adsr_new f) = 0.7 /\ releaseTime (adsr_new f) = 0.2 /\
  attackShape (adsr_new f) = 2 /\ releaseShape (adsr_new f) = 1 /\
  gain (adsr_new f) = 1 /\ phase (adsr_new f) = Idle /\
  phaseFunc (adsr_new f) = ptr_idlePhase /\ currentEnv (adsr_new f) = 0.
Proof.
  repeat split.
Qed.

(** C7, as amended.  For every shape input [f] both shape setters store
    [map_shape_to_exponent f], which is [1 + clamp(f,-1,1) * 0.9] when
    [f < 0] and [1 + clamp(f,-1,1) * 9] otherwise.  The exponent is at most
    1 for a negative input and lies in [1, 10] otherwise; its lower end is
    0.1 up to the rounding of the double operations (for an input at or
    below -1 the code stores 0.09999999999999998, lemma
    [shape_exponent_below_tenth]).  With exponent 1 the interpolation is
    linear. *)
Theorem shape_setters_store_exponent (x : t_adsr_tilde) (f : Q) :
  attackShape (adsr_attackshape x f) = map_shape_to_exponent f /\
  releaseShape (adsr_releaseshape x f) = map_shape_to_exponent f /\
  (if Qltb f 0
   then map_shape_to_exponent f = 1 + clamp f (-1) 1 * 0.9 /\
        0.1 * (1 - rounding_slack) <= map_shape_to_exponent f <= 1
   else map_shape_to_exponent f = 1 + clamp f (-1) 1 * 9 /\
        1 <= map_shape_to_exponent f <= 10) /\
  (forall start end_ p, power_lerp start end_ p 1 = start + (end_ - start) * p).
Proof.
  split; [reflexivity |]. split; [reflexivity |].
  split; [| reflexivity].
  assert (Hc : -1 <= clamp f (-1) 1 <= 1) by (apply clamp_range; lra).
  unfold map_shape_to_exponent, rounding_slack.
  case_Qltb f 0.
  - assert (Hs : clamp f (-1) 1 < 0).
    { unfold clamp. case_Qltb f (-1); [lra |]. case_Qltb 1 f; lra. }
    rewrite (proj2 (Qltb_lt _ _) Hs). split; [reflexivity | lra].
  - assert (Hs : 0 <= clamp f (-1) 1).
    { unfold clamp. case_Qltb f (-1); [lra |]. case_Qltb 1 f; lra. }
    rewrite (proj2 (Qltb_ge _ _) Hs). split; [reflexivity | lra].
Qed.

(** C8.  The release setter stores [clamp(f - 3, 0, 10000)] when the object
    starts from silence ([startAtCurrentEnv] is false) and
    [clamp(f, 0, 10000)] when it does not. *)
Theorem adsr_release_stores (x : t_adsr_tilde) (f : Q) :
  releaseTime (adsr_release x f)
    == (if startAtCurrentEnv x then clamp f 0 10000
        else clamp (f - 3) 0 10000).
Proof.
  unfold adsr_release. cbn [releaseTime set_releaseTime set_releasePhaseSamples].
  destruct (startAtCurrentEnv x); cbn [negb].
  - apply clamp_comp. ring.
  - reflexivity.
Qed.

(** C9, as amended.  Every setter stores a value in the documented range of
    its parameter, and a second call with the same input changes nothing.
    The attack, decay, sustain and gain setters store the clamp of the
    input; the release setter stores the clamp of the input less the 3 ms
    startup time when the object starts from silence; the shape setters
    store the exponent mapped from the input, at most 10 and at least 0.1
    up to the rounding of the double operations. *)
Theorem setters_clamp_and_idempotent (x : t_adsr_tilde) (f : Q) :
  (attackTime (adsr_attack x f) = clamp f 0 10000 /\
   0 <= attackTime (adsr_attack x f) <= 10000 /\
   adsr_attack (adsr_attack x f) f = adsr_attack x f) /\
  (decayTime (adsr_decay x f) = clamp f 0 10000 /\
   0 <= decayTime (adsr_decay x f) <= 10000 /\
   adsr_decay (adsr_decay x f) f = adsr_decay x f) /\
  (sustainLevel (adsr_sustain x f) = clamp f 0 1 /\
   0 <= sustainLevel (adsr_sustain x f) <= 1 /\
   adsr_sustain (adsr_sustain x f) f = adsr_sustain x f) /\
  (gain (adsr_g x f) = clamp f 0 1 /\
   0 <= gain (adsr_g x f) <= 1 /\
   adsr_g (adsr_g x f) f = adsr_g x f) /\
  (releaseTime (adsr_release x f)
     == clamp (f - (if startAtCurrentEnv x then 0 else 3)) 0 10000 /\
   0 <= releaseTime (adsr_release x f) <= 10000 /\
   adsr_release (adsr_release x f) f = adsr_release x f) /\
  (attackShape (adsr_attackshape x f) = map_shape_to_exponent f /\
   0.1 * (1 - rounding_slack) <= attackShape (adsr_attackshape x f) <= 10 /\
   adsr_attackshape (adsr_attackshape x f) f = adsr_attackshape x f) /\
  (releaseShape (adsr_releaseshape x f) = map_shape_to_exponent f /\
   0.1 * (1 - rounding_slack)
     <= releaseShape (adsr_releaseshape x f) <= 10 /\
   adsr_releaseshape (adsr_releaseshape x f) f = adsr_releaseshape x f).
Proof.
  repeat match goal with |- _ /\ _ => split end;
    try reflexivity;
    try (cbn; apply clamp_range; lra);
    try (cbn; pose proof (map_shape_to_exponent_range f) as Hm;
         unfold rounding_slack; lra).
  unfold adsr_release. cbn [releaseTime set_releaseTime set_releasePhaseSamples].
  destruct (startAtCurrentEnv x); reflexivity.
Qed.

(** ** The render loop *)

Lemma adsr_perform_one (x : t_adsr_tilde) :
  adsr_perform 1 x
    = (x1 <- call_phaseFunc x ;; ret (x1, [currentEnv x1 * gain x1])).
Proof.
  cbn [adsr_perform]. destruct (call_phaseFunc x); reflexivity.
Qed.

(** A block of [n + m] samples is a block of [n] followed by one of [m]. *)
Lemma adsr_perform_app (n m : nat) :
  forall x,
    adsr_perform (n + m) x
      = (r1 <- adsr_perform n x ;;
         r2 <- adsr_perform m (fst r1) ;;
         ret (fst r2, snd r1 ++ snd r2)).
Proof.
  induction n as [| n IH]; intros x.
  - cbn. destruct (adsr_perform m x) as [[x2 o2] |]; reflexivity.
  - cbn [Nat.add adsr_perform]. destruct (call_phaseFunc x) as [x1 |];
      [cbn [bind] | reflexivity].
    rewrite IH. unfold ret.
    destruct (adsr_perform n x1) as [[x2 o2] |];
      [cbn [bind fst snd] | reflexivity].
    destruct (adsr_perform m x2) as [[x3 o3] |]; reflexivity.
Qed.

Lemma adsr_perform_length (n : nat) :
  forall x x' out, adsr_perform n x = Some (x', out) -> length out = n.
Proof.
  induction n as [| n IH]; intros x x' out H; cbn [adsr_perform] in H.
  - now injection H as _ <-.
  - bind_inv H. bind_inv H. destruct p as [x2 o2]. injection H as _ <-.
    cbn. f_equal. eapply IH. eassumption.
Qed.

(** ** Samples inside a phase *)

Lemma same_phase_refl (x : t_adsr_tilde) : same_phase x x.
Proof. repeat split. Qed.

Lemma same_phase_trans (x y z : t_adsr_tilde) :
  same_phase x y -> same_phase y z -> same_phase x z.
Proof.
  intros (Hp & Hf & Hph & Hs) (Hp' & Hf' & Hph' & Hs').
  split; [eapply same_params_trans; eassumption |].
  repeat split; congruence.
Qed.

Lemma int_div_some (n d : Z) :
  d <> 0%Z -> int_div n d = Some (inject_Z n / inject_Z d).
Proof.
  intros Hd. unfold int_div.
  destruct (Z.eqb_spec d 0); [contradiction | reflexivity].
Qed.

(** A sample that does not exhaust the budget keeps the phase and advances
    the counter; in [Release] the budget must not be the floor value 1. *)
Lemma call_phaseFunc_inside (x : t_adsr_tilde) :
  (0 <= currentSample x)%Z ->
  (currentSample x + 1 < phase_samples x)%Z ->
  exists x',
    call_phaseFunc x = Some x' /\ same_phase x x' /\
    currentSample x' = (currentSample x + 1)%Z.
Proof.
  unfold phase_samples, call_phaseFunc, startupPhase, attackPhase, decayPhase,
    releasePhase.
  intros H0 Hlt.
  destruct (phaseFunc x) eqn:Hf; try lia;
    rewrite int_div_some by lia; cbn [bind];
    cbn [currentSample set_currentSample set_currentEnv startupPhaseSamples
         attackPhaseSamples decayPhaseSamples releasePhaseSamples];
    match goal with
    | |- context [(?n <=? ?c)%Z] => destruct (Z.leb_spec n c); [lia |]
    end;
    eexists; (split; [reflexivity |]); repeat split; cbn; congruence.
Qed.

(** [k] samples that stay inside the budget. *)
Lemma adsr_perform_inside (k : nat) :
  forall x,
    (0 <= currentSample x)%Z ->
    (currentSample x + Z.of_nat k < phase_samples x)%Z ->
    exists x' out,
      adsr_perform k x = Some (x', out) /\ same_phase x x' /\
      currentSample x' = (currentSample x + Z.of_nat k)%Z.
Proof.
  induction k as [| k IH]; intros x H0 Hlt.
  - exists x, []. split; [reflexivity |].
    split; [apply same_phase_refl | cbn; lia].
  - destruct (call_phaseFunc_inside x H0) as (x1 & Hstep & Hsame & Hc);
      [lia |].
    assert (Hb : phase_samples x1 = phase_samples x).
    { destruct Hsame as (Hp & Hf & _). unfold phase_samples. rewrite Hf.
      unfold same_params in Hp.
      repeat match goal with H : _ /\ _ |- _ => destruct H end.
      destruct (phaseFunc x); congruence. }
    destruct (IH x1) as (x' & out & Hrun & Hsame' & Hc'); [lia | lia |].
    exists x', (currentEnv x1 * gain x1 :: out).
    split; [cbn [adsr_perform]; rewrite Hstep; cbn [bind]; rewrite Hrun;
            reflexivity |].
    split; [eapply same_phase_trans; eassumption | lia].
Qed.

(** ** The last sample of a phase *)

Ltac last_sample Hf Hc :=
  unfold call_phaseFunc; rewrite Hf;
  unfold startupPhase, attackPhase, decayPhase, releasePhase;
  rewrite int_div_some by lia; cbn [bind];
  cbn [currentSample set_currentSample set_currentEnv startupPhaseSamples
       attackPhaseSamples decayPhaseSamples releasePhaseSamples];
  match goal with
  | |- context [(?n <=? ?c)%Z] => destruct (Z.leb_spec n c); [| lia]
  end;
  eexists; (split; [reflexivity |]); rewrite Hc; repeat split.

Lemma startupPhase_last (x : t_adsr_tilde) :
  phaseFunc x = ptr_startupPhase ->
  (1 <= startupPhaseSamples x)%Z ->
  currentSample x = (startupPhaseSamples x - 1)%Z ->
  exists x',
    call_phaseFunc x = Some x' /\
    currentEnv x'
      = power_lerp (phaseStartEnv x) 0
          (inject_Z (startupPhaseSamples x - 1)
           / inject_Z (startupPhaseSamples x)) 1 /\
    phase x' = Attack /\ phaseFunc x' = ptr_attackPhase /\
    currentSample x' = 0%Z /\ phaseStartEnv x' = 0 /\ same_params x x'.
Proof.
  intros Hf Hn Hc. last_sample Hf Hc.
Qed.

Lemma attackPhase_last (x : t_adsr_tilde) :
  phaseFunc x = ptr_attackPhase ->
  (1 <= attackPhaseSamples x)%Z ->
  currentSample x = (attackPhaseSamples x - 1)%Z ->
  exists x',
    call_phaseFunc x = Some x' /\
    currentEnv x'
      = power_lerp (phaseStartEnv x) 1
          (inject_Z (attackPhaseSamples x - 1)
           / inject_Z (attackPhaseSamples x)) (attackShape x) /\
    phase x' = Decay /\ phaseFunc x' = ptr_decayPhase /\
    currentSample x' = 0%Z /\ phaseStartEnv x' = phaseStartEnv x /\
    same_params x x'.
Proof.
  intros Hf Hn Hc. last_sample Hf Hc.
Qed.

Lemma decayPhase_last (x : t_adsr_tilde) :
  phaseFunc x = ptr_decayPhase ->
  (1 <= decayPhaseSamples x)%Z ->
  currentSample x = (decayPhaseSamples x - 1)%Z ->
  exists x',
    call_phaseFunc x = Some x' /\
    currentEnv x'
      = (1 - inject_Z (decayPhaseSamples x - 1)
             / inject_Z (decayPhaseSamples x))
        * (1 - sustainLevel x) + sustainLevel x /\
    phase x' = Sustain /\ phaseFunc x' = ptr_sustainPhase /\
    currentSample x' = 0%Z /\ phaseStartEnv x' = phaseStartEnv x /\
    same_params x x'.
Proof.
  intros Hf Hn Hc. last_sample Hf Hc.
Qed.

Lemma releasePhase_last (x : t_adsr_tilde) :
  phaseFunc x = ptr_releasePhase ->
  (2 <= releasePhaseSamples x)%Z ->
  currentSample x = (releasePhaseSamples x - 1)%Z ->
  exists x',
    call_phaseFunc x = Some x' /\
    currentEnv x'
      = power_lerp (phaseStartEnv x) 0
          (inject_Z (releasePhaseSamples x - 1)
           / inject_Z (releasePhaseSamples x - 1)) (releaseShape x) /\
    phase x' = Idle /\ phaseFunc x' = ptr_idlePhase /\
    currentSample x' = 0%Z /\ phaseStartEnv x' = phaseStartEnv x /\
    same_params x x'.
Proof.
  intros Hf Hn Hc. last_sample Hf Hc.
Qed.

(** Progress [(n - 1) / n] is one step short of 1; [n / n] is 1. *)
Lemma progress_last (n : Z) :
  (1 <= n)%Z -> inject_Z (n - 1) / inject_Z n == 1 - 1 / inject_Z n.
Proof.
  intros Hn. unfold Z.sub. rewrite inject_Z_plus.
  assert (Hnz : ~ inject_Z n == 0).
  { intros H. rewrite <- (Qfloor_Z n), H in Hn. cbn in Hn. lia. }
  change (inject_Z (- (1))%Z) with (-1 # 1). field. exact Hnz.
Qed.

Lemma progress_full (n : Z) : n <> 0%Z -> inject_Z n / inject_Z n == 1.
Proof.
  intros Hn. apply Qmult_inv_r. intros H.
  apply Hn. rewrite <- (Qfloor_Z n), H. reflexivity.
Qed.

Lemma progress_zero (n : Z) : inject_Z 0 / inject_Z n == 0.
Proof. unfold Qdiv. change (inject_Z 0) with 0. ring. Qed.

(** The first sample of [Decay] is the peak whatever [Attack] left. *)
Lemma decayPhase_first (x : t_adsr_tilde) :
  phaseFunc x = ptr_decayPhase -> currentSample x = 0%Z ->
  decayPhaseSamples x <> 0%Z ->
  exists x', call_phaseFunc x = Some x' /\ currentEnv x' == 1.
Proof.
  intros Hf Hc Hn. unfold call_phaseFunc. rewrite Hf. unfold decayPhase.
  rewrite int_div_some by exact Hn. cbn [bind]. rewrite Hc.
  match goal with
  | |- context [if ?c then _ else _] => destruct c
  end; eexists; (split; [reflexivity |]); cbn; rewrite progress_zero; ring.
Qed.

(** ** The shaped curve is anchored at both ends *)

Lemma power_lerp_at_zero (start end_ p shape : Q) :
  p == 0 -> 0 < shape -> power_lerp start end_ p shape == start.
Proof.
  intros Hp Hs. unfold power_lerp.
  destruct (Qeq_bool shape 1).
  - rewrite Hp. ring.
  - destruct (Qltb end_ start).
    + rewrite (pow_comp (1 - p) 1 shape) by (rewrite Hp; ring).
      rewrite pow_one. ring.
    + rewrite (pow_comp p 0 shape Hp), (pow_zero shape Hs). ring.
Qed.

Lemma power_lerp_at_one (start end_ p shape : Q) :
  p == 1 -> 0 < shape -> power_lerp start end_ p shape == end_.
Proof.
  intros Hp Hs. unfold power_lerp.
  destruct (Qeq_bool shape 1).
  - rewrite Hp. ring.
  - destruct (Qltb end_ start).
    + rewrite (pow_comp (1 - p) 0 shape) by (rewrite Hp; ring).
      rewrite (pow_zero shape Hs). ring.
    + rewrite (pow_comp p 1 shape Hp), pow_one. ring.
Qed.

(** With the linear shape the end point needs nothing of [pow]. *)
Lemma power_lerp_linear_at_one (start end_ p shape : Q) :
  Qeq_bool shape 1 = true -> p == 1 -> power_lerp start end_ p shape == end_.
Proof.
  intros Hs Hp. unfold power_lerp. rewrite Hs, Hp. ring.
Qed.

(** The first sample of [Attack] after [Startup] is 0. *)
Lemma attackPhase_first (x : t_adsr_tilde) :
  phaseFunc x = ptr_attackPhase -> currentSample x = 0%Z ->
  attackPhaseSamples x <> 0%Z -> phaseStartEnv x = 0 -> 0 < attackShape x ->
  exists x', call_phaseFunc x = Some x' /\ currentEnv x' == 0.
Proof.
  intros Hf Hc Hn Hstart Hs. unfold call_phaseFunc. rewrite Hf.
  unfold attackPhase. rewrite int_div_some by exact Hn. cbn [bind].
  rewrite Hc, Hstart.
  match goal with
  | |- context [if ?c then _ else _] => destruct c
  end; eexists; (split; [reflexivity |]); cbn;
    apply power_lerp_at_zero; auto using progress_zero.
Qed.

(** ** The phase engine: the claims *)

(** C1.  The release sample divides by zero after the release setter has
    stored its floor: with release time 0 the setter stores 0 ms and one
    sample, and the first sample after Stop computes 0 / (1 - 1).  The
    object is one the host can hold, every parameter set by its setter. *)
Theorem release_floor_divides_by_zero :
  reachable (dispatch_all (adsr_new 0) zero_release_messages) /\
  releaseTime (dispatch_all (adsr_new 0) zero_release_messages) = 0 /\
  releasePhaseSamples (dispatch_all (adsr_new 0) zero_release_messages)
    = 1%Z /\
  phase (dispatch_all (adsr_new 0) zero_release_messages) = Release /\
  int_div
    (currentSample (dispatch_all (adsr_new 0) zero_release_messages))
    (releasePhaseSamples (dispatch_all (adsr_new 0) zero_release_messages) - 1)
    = None /\
  adsr_perform 1 (dispatch_all (adsr_new 0) zero_release_messages) = None.
Proof.
  split; [apply reachable_dispatch_all, reach_new |].
  repeat split.
Qed.

(** Whatever the parameters, a release of one sample fails. *)
Lemma releasePhase_floor_fails (x : t_adsr_tilde) :
  phaseFunc x = ptr_releasePhase -> releasePhaseSamples x = 1%Z ->
  call_phaseFunc x = None.
Proof.
  intros Hf Hn. unfold call_phaseFunc. rewrite Hf. unfold releasePhase.
  rewrite Hn. reflexivity.
Qed.

(** Every other sample is safe once the budgets are at least 1. *)
Lemma call_phaseFunc_safe (x : t_adsr_tilde) :
  (1 <= startupPhaseSamples x)%Z -> (1 <= attackPhaseSamples x)%Z ->
  (1 <= decayPhaseSamples x)%Z -> (2 <= releasePhaseSamples x)%Z ->
  exists x', call_phaseFunc x = Some x'.
Proof.
  intros Hs Ha Hd Hr.
  unfold call_phaseFunc, startupPhase, attackPhase, decayPhase, sustainPhase,
    releasePhase, idlePhase, ret.
  destruct (phaseFunc x); try rewrite int_div_some by lia; cbn [bind];
    try match goal with
        | |- context [if ?c then _ else _] => destruct c
        end;
    eexists; reflexivity.
Qed.

(** C2, as amended.  When a phase spends the last sample of its budget [N]
    (every count at least 1, the release count at least 2, shape exponents
    positive) the engine enters the next phase.  The last sample of the
    finishing phase is its curve at progress (N - 1) / N in Startup, Attack
    and Decay, and exactly 0 in Release.  The next sample is the end point
    of that curve: 0 after Startup (the start value Attack interpolates
    from), 1 after Attack (the attack curve at progress 1), the sustain
    level after Decay, 0 after Release. *)
Theorem phase_boundary_values (x : t_adsr_tilde) :
  (1 <= startupPhaseSamples x)%Z -> (1 <= attackPhaseSamples x)%Z ->
  (1 <= decayPhaseSamples x)%Z ->
  (phaseFunc x = ptr_releasePhase -> (2 <= releasePhaseSamples x)%Z) ->
  0 < attackShape x -> 0 < releaseShape x ->
  currentSample x = (phase_samples x - 1)%Z ->
  exists x' x'',
    call_phaseFunc x = Some x' /\ call_phaseFunc x' = Some x'' /\
    match phaseFunc x with
    | ptr_startupPhase =>
        phase x' = Attack /\
        currentEnv x' == phaseStartEnv x / inject_Z (startupPhaseSamples x) /\
        phaseStartEnv x' = 0 /\ currentEnv x'' == 0
    | ptr_attackPhase =>
        phase x' = Decay /\
        currentEnv x'
          = power_lerp (phaseStartEnv x) 1
              (inject_Z (attackPhaseSamples x - 1)
               / inject_Z (attackPhaseSamples x)) (attackShape x) /\
        currentEnv x'' == 1 /\
        currentEnv x'' == power_lerp (phaseStartEnv x) 1 1 (attackShape x)
    | ptr_decayPhase =>
        phase x' = Sustain /\
        currentEnv x'
          == sustainLevel x
             + (1 - sustainLevel x) / inject_Z (decayPhaseSamples x) /\
        currentEnv x'' == sustainLevel x
    | ptr_releasePhase =>
        phase x' = Idle /\ currentEnv x' == 0 /\ currentEnv x'' == 0
    | ptr_sustainPhase | ptr_idlePhase => phase x' = phase x
    end.
Proof.
  intros Hs Ha Hd Hr Hash Hrsh Hc. unfold phase_samples in Hc.
  destruct (phaseFunc x) eqn:Hf.
  - destruct (startupPhase_last x Hf Hs Hc)
      as (x' & Hstep & Hv & Hph & Hf' & Hc' & Hst & Hp).
    unfold same_params in Hp.
    repeat match goal with H : _ /\ _ |- _ => destruct H end.
    destruct (attackPhase_first x') as (x'' & Hstep' & Hv');
      try assumption; try congruence; try lia.
    exists x', x''. repeat split; try assumption.
    rewrite Hv. unfold power_lerp. change (Qeq_bool 1 1) with true. cbv iota.
    rewrite progress_last by exact Hs. field.
    intros H'. rewrite <- (Qfloor_Z (startupPhaseSamples x)), H' in Hs.
    cbn in Hs. lia.
  - destruct (attackPhase_last x Hf Ha Hc)
      as (x' & Hstep & Hv & Hph & Hf' & Hc' & Hst & Hp).
    unfold same_params in Hp.
    repeat match goal with H : _ /\ _ |- _ => destruct H end.
    destruct (decayPhase_first x') as (x'' & Hstep' & Hv');
      try assumption; try lia.
    exists x', x''. repeat split; try assumption.
    rewrite Hv'. symmetry. apply power_lerp_at_one; [reflexivity | exact Hash].
  - destruct (decayPhase_last x Hf Hd Hc)
      as (x' & Hstep & Hv & Hph & Hf' & Hc' & Hst & Hp).
    unfold same_params in Hp.
    repeat match goal with H : _ /\ _ |- _ => destruct H end.
    exists x', (set_currentEnv x' (sustainLevel x')).
    split; [assumption |].
    split; [unfold call_phaseFunc; rewrite Hf'; reflexivity |].
    split; [assumption |].
    split; [| cbn; now replace (sustainLevel x') with (sustainLevel x)].
    rewrite Hv, progress_last by exact Hd. field.
    intros H'. rewrite <- (Qfloor_Z (decayPhaseSamples x)), H' in Hd.
    cbn in Hd. lia.
  - exists (set_currentEnv x (sustainLevel x)).
    exists (set_currentEnv (set_currentEnv x (sustainLevel x)) (sustainLevel x)).
    unfold call_phaseFunc. cbn [phaseFunc set_currentEnv]. rewrite Hf.
    repeat split.
  - specialize (Hr eq_refl).
    destruct (releasePhase_last x Hf Hr Hc)
      as (x' & Hstep & Hv & Hph & Hf' & Hc' & Hst & Hp).
    exists x', (set_currentEnv x' 0).
    split; [assumption |].
    split; [unfold call_phaseFunc; rewrite Hf'; reflexivity |].
    split; [assumption |]. split; [| reflexivity].
    rewrite Hv. apply power_lerp_at_one; [apply progress_full; lia | exact Hrsh].
  - exists (set_currentEnv x 0), (set_currentEnv (set_currentEnv x 0) 0).
    unfold call_phaseFunc. cbn [phaseFunc set_currentEnv]. rewrite Hf.
    repeat split.
Qed.

Ltac split_same H :=
  unfold same_phase, same_params in H;
  repeat match goal with H' : _ /\ _ |- _ => destruct H' end.

(** C3, as amended.  On an object that attacks from the current value, with
    envelope value 0, Start is followed by exactly [attackPhaseSamples]
    Attack samples, after which the engine is in Decay.  The last of them
    (index [attackPhaseSamples - 1]) is the shaped progress at
    (N - 1) / N, which is 1 - 1/N for the linear shape, not 1; the value 1
    is the next sample, the first of Decay. *)
Theorem attack_last_sample (x : t_adsr_tilde) :
  startAtCurrentEnv x = true -> currentEnv x == 0 ->
  (1 <= attackPhaseSamples x)%Z -> decayPhaseSamples x <> 0%Z ->
  exists x0 out0 x' x'',
    adsr_perform (Z.to_nat (attackPhaseSamples x - 1)) (adsr_trigger_start x)
      = Some (x0, out0) /\
    phase x0 = Attack /\
    currentSample x0 = (attackPhaseSamples x - 1)%Z /\
    call_phaseFunc x0 = Some x' /\
    adsr_perform (Z.to_nat (attackPhaseSamples x)) (adsr_trigger_start x)
      = Some (x', out0 ++ [currentEnv x' * gain x']) /\
    phase x' = Decay /\ currentSample x' = 0%Z /\
    currentEnv x'
      == (if Qeq_bool (attackShape x) 1
          then 1 - 1 / inject_Z (attackPhaseSamples x)
          else pow (inject_Z (attackPhaseSamples x - 1)
                    / inject_Z (attackPhaseSamples x)) (attackShape x)) /\
    call_phaseFunc x' = Some x'' /\ currentEnv x'' == 1.
Proof.
  intros Hmode Hzero Hn Hd.
  unfold adsr_trigger_start. rewrite Hmode. cbn [negb].
  set (xs := enter_phase (set_phaseStartEnv x (currentEnv x)) Attack).
  destruct (adsr_perform_inside (Z.to_nat (attackPhaseSamples x - 1)) xs)
    as (x0 & out0 & Hrun & Hsame & Hc).
  { cbn. lia. }
  { cbn. lia. }
  split_same Hsame.
  assert (Hn0 : attackPhaseSamples x0 = attackPhaseSamples x)
    by (cbn in *; congruence).
  assert (Hc0 : currentSample x0 = (attackPhaseSamples x0 - 1)%Z)
    by (rewrite Hc, Hn0; cbn; lia).
  destruct (attackPhase_last x0)
    as (x' & Hstep & Hv & Hph & Hf' & Hc' & Hst & Hp);
    [cbn in *; congruence | lia | exact Hc0 |].
  split_same Hp.
  destruct (decayPhase_first x') as (x'' & Hstep' & Hv');
    [assumption | assumption | cbn in *; congruence |].
  exists x0, out0, x', x''.
  split; [exact Hrun |].
  split; [cbn in *; congruence |].
  split; [rewrite Hc0, Hn0; reflexivity |].
  split; [exact Hstep |].
  split.
  { replace (Z.to_nat (attackPhaseSamples x))
      with (Z.to_nat (attackPhaseSamples x - 1) + 1)%nat by lia.
    rewrite adsr_perform_app, Hrun. cbn [bind fst snd].
    rewrite adsr_perform_one, Hstep. reflexivity. }
  split; [exact Hph |]. split; [exact Hc' |].
  split; [| split; assumption].
  rewrite Hv, Hn0.
  replace (phaseStartEnv x0) with (currentEnv x) by (cbn in *; congruence).
  replace (attackShape x0) with (attackShape x) by (cbn in *; congruence).
  unfold power_lerp. destruct (Qeq_bool (attackShape x) 1).
  - rewrite progress_last by exact Hn. rewrite Hzero. ring.
  - assert (Hle : currentEnv x <= 1) by lra.
    rewrite (proj2 (Qltb_ge _ _) Hle). rewrite Hzero. ring.
Qed.

(** C6.  Stop changes nothing in Idle and in Release, so a second Stop
    leaves the object, and every block rendered after it, as the first did;
    in every other phase it captures the current value as the start value,
    enters Release and resets the sample counter, and touches no
    parameter. *)
Theorem adsr_trigger_stop_effect (x : t_adsr_tilde) :
  match phase x with
  | Idle | Release => adsr_trigger_stop x = x
  | Startup | Attack | Decay | Sustain =>
      phaseStartEnv (adsr_trigger_stop x) = currentEnv x /\
      phase (adsr_trigger_stop x) = Release /\
      phaseFunc (adsr_trigger_stop x) = ptr_releasePhase /\
      currentSample (adsr_trigger_stop x) = 0%Z /\
      currentEnv (adsr_trigger_stop x) = currentEnv x /\
      same_params x (adsr_trigger_stop x)
  end /\
  adsr_trigger_stop (adsr_trigger_stop x) = adsr_trigger_stop x /\
  (forall n,
     adsr_perform n (adsr_trigger_stop (adsr_trigger_stop x))
       = adsr_perform n (adsr_trigger_stop x)).
Proof.
  assert (Hcases : adsr_trigger_stop x = x
                   \/ phase (adsr_trigger_stop x) = Release).
  { unfold adsr_trigger_stop.
    destruct (phase x); cbn [phase_neqb andb];
      solve [left; reflexivity | right; reflexivity]. }
  assert (Hidem : adsr_trigger_stop (adsr_trigger_stop x) = adsr_trigger_stop x).
  { destruct Hcases as [H | H].
    - rewrite H. exact H.
    - unfold adsr_trigger_stop at 1. rewrite H. reflexivity. }
  split; [| split; [exact Hidem | intros n; now rewrite Hidem]].
  unfold adsr_trigger_stop.
  destruct (phase x); cbn [phase_neqb andb]; repeat split.
Qed.

(** C10.  With the linear release shape and a release of [N >= 2] samples,
    the engine spends [N - 1] samples in Release after entering it, the
    progress of the last sample (index [N - 1]) is (N - 1) / (N - 1) = 1,
    its value is exactly 0, and it is the sample that enters Idle. *)
Theorem release_last_sample_zero (x : t_adsr_tilde) :
  Qeq_bool (releaseShape x) 1 = true -> (2 <= releasePhaseSamples x)%Z ->
  exists x0 out0 p x',
    adsr_perform (Z.to_nat (releasePhaseSamples x - 1)) (enter_phase x Release)
      = Some (x0, out0) /\
    phase x0 = Release /\
    currentSample x0 = (releasePhaseSamples x - 1)%Z /\
    int_div (currentSample x0) (releasePhaseSamples x0 - 1) = Some p /\
    p == 1 /\
    call_phaseFunc x0 = Some x' /\
    currentEnv x' == 0 /\ phase x' = Idle /\
    adsr_perform (Z.to_nat (releasePhaseSamples x)) (enter_phase x Release)
      = Some (x', out0 ++ [currentEnv x' * gain x']).
Proof.
  intros Hshape Hn.
  set (xr := enter_phase x Release).
  destruct (adsr_perform_inside (Z.to_nat (releasePhaseSamples x - 1)) xr)
    as (x0 & out0 & Hrun & Hsame & Hc).
  { cbn. lia. }
  { cbn. lia. }
  split_same Hsame.
  assert (Hn0 : releasePhaseSamples x0 = releasePhaseSamples x)
    by (cbn in *; congruence).
  assert (Hc0 : currentSample x0 = (releasePhaseSamples x0 - 1)%Z)
    by (rewrite Hc, Hn0; cbn; lia).
  destruct (releasePhase_last x0)
    as (x' & Hstep & Hv & Hph & Hf' & Hc' & Hst & Hp);
    [cbn in *; congruence | lia | exact Hc0 |].
  exists x0, out0.
  exists (inject_Z (currentSample x0) / inject_Z (releasePhaseSamples x0 - 1)).
  exists x'.
  split; [exact Hrun |].
  split; [cbn in *; congruence |].
  split; [rewrite Hc0, Hn0; reflexivity |].
  split; [apply int_div_some; lia |].
  split; [rewrite Hc0; apply progress_full; lia |].
  split; [exact Hstep |].
  split.
  { rewrite Hv. apply power_lerp_linear_at_one; [| apply progress_full; lia].
    replace (releaseShape x0) with (releaseShape x) by (cbn in *; congruence).
    exact Hshape. }
  split; [exact Hph |].
  replace (Z.to_nat (releasePhaseSamples x))
    with (Z.to_nat (releasePhaseSamples x - 1) + 1)%nat by lia.
  rewrite adsr_perform_app, Hrun. cbn [bind fst snd].
  rewrite adsr_perform_one, Hstep. reflexivity.
Qed.

(** * Further properties of the engine *)

(** ** Notions the further statements use *)

(** The function [enter_phase] binds to each phase. *)
Definition phase_ptr (p : t_adsr_phase) : adsr_phase_ptr :=
  match p with
  | Idle => ptr_idlePhase
  | Startup => ptr_startupPhase
  | Attack => ptr_attackPhase
  | Decay => ptr_decayPhase
  | Sustain => ptr_sustainPhase
  | Release => ptr_releasePhase
  end.

(** The phase a phase function enters when its budget is spent; [Sustain]
    and [Idle] enter none. *)
Definition next_phase (x : t_adsr_tilde) : t_adsr_phase :=
  match phaseFunc x with
  | ptr_startupPhase => Attack
  | ptr_attackPhase => Decay
  | ptr_decayPhase => Sustain
  | ptr_sustainPhase => Sustain
  | ptr_releasePhase => Idle
  | ptr_idlePhase => Idle
  end.

(** The value the bound phase function assigns to [currentEnv] when the
    sample counter is [c]. *)
Definition phase_curve (x : t_adsr_tilde) (c : Z) : Q :=
  match phaseFunc x with
  | ptr_startupPhase =>
      power_lerp (phaseStartEnv x) 0
        (inject_Z c / inject_Z (startupPhaseSamples x)) 1
  | ptr_attackPhase =>
      power_lerp (phaseStartEnv x) 1
        (inject_Z c / inject_Z (attackPhaseSamples x)) (attackShape x)
  | ptr_decayPhase =>
      (1 - inject_Z c / inject_Z (decayPhaseSamples x))
      * (1 - sustainLevel x) + sustainLevel x
  | ptr_sustainPhase => sustainLevel x
  | ptr_releasePhase =>
      power_lerp (phaseStartEnv x) 0
        (inject_Z c / inject_Z (releasePhaseSamples x - 1)) (releaseShape x)
  | ptr_idlePhase => 0
  end.

(** ** When a sample fails *)

(** When the bound phase function returns no value. *)
Lemma call_phaseFunc_none_iff (x : t_adsr_tilde) :
  call_phaseFunc x = None <->
  match phaseFunc x with
  | ptr_startupPhase => startupPhaseSamples x = 0%Z
  | ptr_attackPhase => attackPhaseSamples x = 0%Z
  | ptr_decayPhase => decayPhaseSamples x = 0%Z
  | ptr_releasePhase => releasePhaseSamples x = 1%Z
  | ptr_sustainPhase | ptr_idlePhase => False
  end.
Proof.
  unfold call_phaseFunc, startupPhase, attackPhase, decayPhase, sustainPhase,
    releasePhase, idlePhase, ret, int_div.
  destruct (phaseFunc x);
    try (split; [discriminate | contradiction]);
    match goal with
    | |- context [(?d =? 0)%Z] => destruct (Z.eqb_spec d 0) as [Hd | Hd]
    end; cbn [bind];
    try (split; [intros _; lia | reflexivity]);
    (split; [| intros; lia]);
    match goal with
    | |- context [if ?c then _ else _] => destruct c
    end; discriminate.
Qed.

(** A sample fails exactly when the divisor of the bound phase function is
    zero: a count of 0 in Startup, Attack or Decay, a count of 1 in Release;
    Sustain and Idle never fail. *)
Theorem call_phaseFunc_fails_iff (x : t_adsr_tilde) :
  call_phaseFunc x = None <->
  match phaseFunc x with
  | ptr_startupPhase => startupPhaseSamples x = 0%Z
  | ptr_attackPhase => attackPhaseSamples x = 0%Z
  | ptr_decayPhase => decayPhaseSamples x = 0%Z
  | ptr_releasePhase => releasePhaseSamples x = 1%Z
  | ptr_sustainPhase | ptr_idlePhase => False
  end.
Proof.
  exact (call_phaseFunc_none_iff x).
Qed.

Lemma adsr_perform_fails (n : nat) (x : t_adsr_tilde) :
  call_phaseFunc x = None -> adsr_perform (S n) x = None.
Proof.
  intros H. cbn [adsr_perform]. now rewrite H.
Qed.

(** Release is entered by Stop only: no sample binds [releasePhase]. *)
Lemma call_phaseFunc_release (x x' : t_adsr_tilde) :
  call_phaseFunc x = Some x' -> phaseFunc x' = ptr_releasePhase ->
  phaseFunc x = ptr_releasePhase.
Proof.
  unfold call_phaseFunc, startupPhase, attackPhase, decayPhase, sustainPhase,
    releasePhase, idlePhase, ret.
  intros H. destruct (phaseFunc x) eqn:Hf; try reflexivity;
    try bind_inv H;
    try match type of H with
        | (if ?c then _ else _) = _ => destruct c
        end;
    injection H as <-; cbn; congruence.
Qed.

(** A block of any size is rendered without a division by zero when the
    Startup, Attack and Decay counts are at least 1 and, if the block starts
    in Release, the Release count is at least 2; it writes one sample per
    requested sample and leaves every parameter as it was. *)
Theorem adsr_perform_safe (n : nat) :
  forall x,
    (1 <= startupPhaseSamples x)%Z -> (1 <= attackPhaseSamples x)%Z ->
    (1 <= decayPhaseSamples x)%Z ->
    (phaseFunc x = ptr_releasePhase -> (2 <= releasePhaseSamples x)%Z) ->
    exists x' out,
      adsr_perform n x = Some (x', out) /\ length out = n /\
      same_params x x'.
Proof.
  induction n as [| n IH]; intros x Hs Ha Hd Hr.
  - exists x, []. repeat split.
  - destruct (call_phaseFunc x) as [x1 |] eqn:Hstep.
    + pose proof (call_phaseFunc_params x x1 Hstep) as Hp.
      pose proof (call_phaseFunc_release x x1 Hstep) as Hrel.
      assert (Hcounts :
        startupPhaseSamples x1 = startupPhaseSamples x /\
        attackPhaseSamples x1 = attackPhaseSamples x /\
        decayPhaseSamples x1 = decayPhaseSamples x /\
        releasePhaseSamples x1 = releasePhaseSamples x).
      { split_same Hp. repeat split; assumption. }
      destruct Hcounts as (Es & Ea & Ed & Er).
      destruct (IH x1) as (x' & out & Hrun & Hlen & Hp');
        [lia | lia | lia | intros Hx1; rewrite Er; apply Hr, Hrel, Hx1 |].
      exists x', (currentEnv x1 * gain x1 :: out).
      split; [cbn [adsr_perform]; rewrite Hstep; cbn [bind]; rewrite Hrun;
              reflexivity |].
      split; [cbn; now rewrite Hlen |].
      eapply same_params_trans; eassumption.
    + exfalso. apply call_phaseFunc_none_iff in Hstep.
      destruct (phaseFunc x); try lia; try contradiction.
      specialize (Hr eq_refl). lia.
Qed.

(** ** The phases that hold *)

(** In Sustain every sample of every block is the sustain level (times the
    gain at the outlet), and the block changes nothing but [currentEnv]. *)
Theorem sustainPhase_holds (n : nat) (x : t_adsr_tilde) :
  phaseFunc x = ptr_sustainPhase ->
  adsr_perform (S n) x
    = Some (set_currentEnv x (sustainLevel x),
            repeat (sustainLevel x * gain x) (S n)).
Proof.
  intros Hf. revert x Hf.
  induction n as [| n IH]; intros x Hf.
  - cbn [adsr_perform]. unfold call_phaseFunc. rewrite Hf. reflexivity.
  - change (adsr_perform (S (S n)) x)
      with (x1 <- call_phaseFunc x ;;
            r <- adsr_perform (S n) x1 ;;
            ret (fst r, currentEnv x1 * gain x1 :: snd r)).
    unfold call_phaseFunc at 1. rewrite Hf. unfold sustainPhase, ret.
    cbn [bind]. rewrite IH by exact Hf. cbn [bind fst snd].
    destruct x; reflexivity.
Qed.

(** In Idle every sample of every block is [0 * gain], that is 0, and the
    block changes nothing but [currentEnv], which it sets to 0. *)
Theorem idlePhase_silent (n : nat) (x : t_adsr_tilde) :
  phaseFunc x = ptr_idlePhase ->
  adsr_perform (S n) x
    = Some (set_currentEnv x 0, repeat (0 * gain x) (S n)) /\
  0 * gain x == 0.
Proof.
  intros Hf. split; [| ring]. revert x Hf.
  induction n as [| n IH]; intros x Hf.
  - cbn [adsr_perform]. unfold call_phaseFunc. rewrite Hf. reflexivity.
  - change (adsr_perform (S (S n)) x)
      with (x1 <- call_phaseFunc x ;;
            r <- adsr_perform (S n) x1 ;;
            ret (fst r, currentEnv x1 * gain x1 :: snd r)).
    unfold call_phaseFunc at 1. rewrite Hf. unfold idlePhase, ret.
    cbn [bind]. rewrite IH by exact Hf. cbn [bind fst snd].
    destruct x; reflexivity.
Qed.

(** ** The samples of a whole phase *)

Lemma phase_curve_same (x x' : t_adsr_tilde) (c : Z) :
  same_phase x x' -> phase_curve x' c = phase_curve x c.
Proof.
  intros H. split_same H. unfold phase_curve.
  repeat match goal with E : _ x' = _ x |- _ => rewrite E; clear E end.
  reflexivity.
Qed.

Lemma phase_samples_same (x x' : t_adsr_tilde) :
  same_phase x x' -> phase_samples x' = phase_samples x.
Proof.
  intros H. split_same H. unfold phase_samples.
  repeat match goal with E : _ x' = _ x |- _ => rewrite E; clear E end.
  reflexivity.
Qed.

(** A sample inside the budget computes the curve at the counter. *)
Lemma call_phaseFunc_inside_curve (x : t_adsr_tilde) :
  (0 <= currentSample x)%Z ->
  (currentSample x + 1 < phase_samples x)%Z ->
  exists x',
    call_phaseFunc x = Some x' /\ same_phase x x' /\
    currentSample x' = (currentSample x + 1)%Z /\
    currentEnv x' = phase_curve x (currentSample x).
Proof.
  unfold phase_samples, phase_curve, call_phaseFunc, startupPhase,
    attackPhase, decayPhase, releasePhase.
  intros H0 Hlt.
  destruct (phaseFunc x) eqn:Hf; try lia;
    rewrite int_div_some by lia; cbn [bind];
    cbn [currentSample set_currentSample set_currentEnv startupPhaseSamples
         attackPhaseSamples decayPhaseSamples releasePhaseSamples];
    match goal with
    | |- context [(?n <=? ?c)%Z] => destruct (Z.leb_spec n c); [lia |]
    end;
    eexists; (split; [reflexivity |]); repeat split; cbn; congruence.
Qed.

(** The sample that spends the budget computes the curve at the counter and
    enters the next phase. *)
Lemma call_phaseFunc_last_curve (x : t_adsr_tilde) :
  (1 <= phase_samples x)%Z ->
  (phaseFunc x = ptr_releasePhase -> (2 <= releasePhaseSamples x)%Z) ->
  currentSample x = (phase_samples x - 1)%Z ->
  exists x',
    call_phaseFunc x = Some x' /\ same_params x x' /\
    currentEnv x' = phase_curve x (currentSample x) /\
    phase x' = next_phase x /\ phaseFunc x' = phase_ptr (next_phase x) /\
    currentSample x' = 0%Z /\
    phaseStartEnv x'
      = match phaseFunc x with
        | ptr_startupPhase => 0
        | _ => phaseStartEnv x
        end.
Proof.
  unfold phase_samples, phase_curve, next_phase.
  intros Hn Hr Hc.
  destruct (phaseFunc x) eqn:Hf; try lia.
  - destruct (startupPhase_last x Hf Hn Hc)
      as (x' & Hstep & Hv & Hph & Hf' & Hc' & Hst & Hp).
    exists x'. rewrite Hc.
    split; [exact Hstep |]. split; [exact Hp |]. repeat split; assumption.
  - destruct (attackPhase_last x Hf Hn Hc)
      as (x' & Hstep & Hv & Hph & Hf' & Hc' & Hst & Hp).
    exists x'. rewrite Hc.
    split; [exact Hstep |]. split; [exact Hp |]. repeat split; assumption.
  - destruct (decayPhase_last x Hf Hn Hc)
      as (x' & Hstep & Hv & Hph & Hf' & Hc' & Hst & Hp).
    exists x'. rewrite Hc.
    split; [exact Hstep |]. split; [exact Hp |]. repeat split; assumption.
  - destruct (releasePhase_last x Hf (Hr eq_refl) Hc)
      as (x' & Hstep & Hv & Hph & Hf' & Hc' & Hst & Hp).
    exists x'. rewrite Hc.
    split; [exact Hstep |]. split; [exact Hp |]. repeat split; assumption.
Qed.

(** The samples a block writes while it stays inside the budget. *)
Lemma adsr_perform_inside_curve (k : nat) :
  forall x,
    (0 <= currentSample x)%Z ->
    (currentSample x + Z.of_nat k < phase_samples x)%Z ->
    exists x',
      adsr_perform k x
        = Some (x',
                map (fun j => phase_curve x (currentSample x + Z.of_nat j)
                              * gain x) (seq 0 k)) /\
      same_phase x x' /\
      currentSample x' = (currentSample x + Z.of_nat k)%Z.
Proof.
  induction k as [| k IH]; intros x H0 Hlt.
  - exists x. split; [reflexivity |].
    split; [apply same_phase_refl | cbn; lia].
  - destruct (call_phaseFunc_inside_curve x H0)
      as (x1 & Hstep & Hsame & Hc & Hv); [lia |].
    pose proof (phase_samples_same x x1 Hsame) as Hb.
    destruct (IH x1) as (x' & Hrun & Hsame' & Hc'); [lia | lia |].
    exists x'.
    split; [| split; [eapply same_phase_trans; eassumption | lia]].
    cbn [adsr_perform]. rewrite Hstep. cbn [bind]. rewrite Hrun.
    unfold ret. cbn [bind fst snd seq map].
    assert (Hg : gain x1 = gain x).
    { destruct Hsame as (Hp & _). unfold same_params in Hp. apply Hp. }
    rewrite Hg, Hv, Z.add_0_r. do 3 f_equal.
    rewrite <- seq_shift, map_map. apply map_ext. intros j.
    rewrite (phase_curve_same x x1) by exact Hsame.
    rewrite Hc. do 2 f_equal. lia.
Qed.

(** The samples of a whole phase, from the counter 0. *)
Lemma adsr_perform_phase (x : t_adsr_tilde) :
  currentSample x = 0%Z -> (1 <= phase_samples x)%Z ->
  (phaseFunc x = ptr_releasePhase -> (2 <= releasePhaseSamples x)%Z) ->
  exists x',
    adsr_perform (Z.to_nat (phase_samples x)) x
      = Some (x',
              map (fun j => phase_curve x (Z.of_nat j) * gain x)
                (seq 0 (Z.to_nat (phase_samples x)))) /\
    currentEnv x' = phase_curve x (phase_samples x - 1) /\
    phase x' = next_phase x /\ phaseFunc x' = phase_ptr (next_phase x) /\
    currentSample x' = 0%Z /\ same_params x x' /\
    phaseStartEnv x'
      = match phaseFunc x with
        | ptr_startupPhase => 0
        | _ => phaseStartEnv x
        end.
Proof.
  intros Hc Hn Hr.
  destruct (adsr_perform_inside_curve (Z.to_nat (phase_samples x - 1)) x)
    as (x0 & Hrun & Hsame & Hc0); [lia | lia |].
  pose proof (phase_samples_same x x0 Hsame) as Hb.
  pose proof (phase_curve_same x x0) as Hcurve.
  assert (Hf0 : phaseFunc x0 = phaseFunc x) by apply Hsame.
  assert (Hs0 : phaseStartEnv x0 = phaseStartEnv x) by apply Hsame.
  assert (Hp0 : same_params x x0) by apply Hsame.
  destruct (call_phaseFunc_last_curve x0)
    as (x' & Hstep & Hp & Hv & Hph & Hf' & Hc' & Hst).
  { lia. }
  { rewrite Hf0. intros H. specialize (Hr H).
    unfold same_params in Hp0.
    destruct Hp0 as (_ & _ & _ & _ & _ & _ & _ & _ & _ & _ & _ & E & _).
    lia. }
  { lia. }
  assert (Hnext : next_phase x0 = next_phase x)
    by (unfold next_phase; now rewrite Hf0).
  exists x'.
  split.
  { replace (Z.to_nat (phase_samples x))
      with (Z.to_nat (phase_samples x - 1) + 1)%nat by lia.
    rewrite adsr_perform_app, Hrun. cbn [bind fst snd].
    rewrite adsr_perform_one, Hstep. unfold ret. cbn [bind fst snd].
    rewrite seq_app, map_app. cbn [seq map]. do 3 f_equal.
    - apply map_ext. intros j. rewrite Hc. reflexivity.
    - rewrite Hv, Hcurve by exact Hsame.
      replace (gain x') with (gain x).
      + do 3 f_equal. rewrite Hc0, Hc. lia.
      + unfold same_params in Hp0, Hp.
        destruct Hp0 as (_ & _ & _ & _ & _ & _ & _ & _ & _ & _ & _ & _ & _ & E).
        destruct Hp as (_ & _ & _ & _ & _ & _ & _ & _ & _ & _ & _ & _ & _ & E').
        congruence. }
  split; [rewrite Hv, Hcurve by exact Hsame; f_equal; rewrite Hc0, Hc; lia |].
  split; [congruence |]. split; [congruence |]. split; [exact Hc' |].
  split; [eapply same_params_trans; eassumption |].
  rewrite Hst, Hf0, Hs0. reflexivity.
Qed.

(** A phase entered with the counter 0 and a budget of [N] samples (at
    least 1, at least 2 in Release) writes exactly [N] samples, the curve of
    the phase at the counters [0 .. N-1] times the gain, and the [N]th sample
    enters the next phase with the counter 0 and every parameter as it
    was. *)
Theorem phase_emits_curve (x : t_adsr_tilde) :
  currentSample x = 0%Z -> (1 <= phase_samples x)%Z ->
  (phaseFunc x = ptr_releasePhase -> (2 <= releasePhaseSamples x)%Z) ->
  exists x',
    adsr_perform (Z.to_nat (phase_samples x)) x
      = Some (x',
              map (fun j => phase_curve x (Z.of_nat j) * gain x)
                (seq 0 (Z.to_nat (phase_samples x)))) /\
    currentEnv x' = phase_curve x (phase_samples x - 1) /\
    phase x' = next_phase x /\ phaseFunc x' = phase_ptr (next_phase x) /\
    currentSample x' = 0%Z /\ same_params x x' /\
    phaseStartEnv x'
      = match phaseFunc x with
        | ptr_startupPhase => 0
        | _ => phaseStartEnv x
        end.
Proof.
  exact (adsr_perform_phase x).
Qed.

(** ** Triggers and parameter messages *)

(** What the phase engine keeps between samples. *)
Definition same_engine (x x' : t_adsr_tilde) : Prop :=
  phase x' = phase x /\ phaseFunc x' = phaseFunc x /\
  currentSample x' = currentSample x /\ currentEnv x' = currentEnv x /\
  phaseStartEnv x' = phaseStartEnv x.

(** Start enters Startup on an object that starts from silence and Attack
    on one that attacks from the current value, in both cases from the
    current envelope value and with the counter 0; it changes neither the
    envelope value nor a parameter.  A second Start changes nothing more,
    and a Stop just before Start is forgotten. *)
Theorem adsr_trigger_start_effect (x : t_adsr_tilde) :
  phase (adsr_trigger_start x)
    = (if startAtCurrentEnv x then Attack else Startup) /\
  phaseFunc (adsr_trigger_start x) = phase_ptr (phase (adsr_trigger_start x)) /\
  phaseStartEnv (adsr_trigger_start x) = currentEnv x /\
  currentEnv (adsr_trigger_start x) = currentEnv x /\
  currentSample (adsr_trigger_start x) = 0%Z /\
  same_params x (adsr_trigger_start x) /\
  adsr_trigger_start (adsr_trigger_start x) = adsr_trigger_start x /\
  adsr_trigger_start (adsr_trigger_stop x) = adsr_trigger_start x.
Proof.
  unfold adsr_trigger_start, adsr_trigger_stop.
  destruct x as [ph pf sr srms at_ dt sl rt ash rsh ce pse sace aps dps rps
                   sps cs g].
  cbn [startAtCurrentEnv phase currentEnv].
  destruct sace, ph; cbn; repeat split.
Qed.

(** A parameter message ([dsp] included) leaves the phase, the bound
    function, the counter, the envelope value and the start value alone; a
    trigger leaves every parameter and the envelope value alone; no message
    changes the start mode chosen at construction. *)
Theorem dispatch_frame (x : t_adsr_tilde) (m : message) :
  match m with
  | msg_start | msg_stop =>
      same_params x (dispatch x m) /\
      currentEnv (dispatch x m) = currentEnv x
  | _ =>
      same_engine x (dispatch x m) /\
      startAtCurrentEnv (dispatch x m) = startAtCurrentEnv x
  end.
Proof.
  destruct m; cbn [dispatch]; try (repeat split; fail).
  - unfold adsr_trigger_start.
    destruct (negb (startAtCurrentEnv x)); repeat split.
  - unfold adsr_trigger_stop.
    destruct (phase_neqb (phase x) Idle && phase_neqb (phase x) Release);
      repeat split.
Qed.

(** ** What every object the host can hold satisfies *)

Lemma call_phaseFunc_bound (x x' : t_adsr_tilde) :
  call_phaseFunc x = Some x' -> phaseFunc x = phase_ptr (phase x) ->
  phaseFunc x' = phase_ptr (phase x').
Proof.
  unfold call_phaseFunc, startupPhase, attackPhase, decayPhase, sustainPhase,
    releasePhase, idlePhase, ret.
  intros H Hb.
  destruct (phaseFunc x) eqn:Hf; try bind_inv H;
    try match type of H with
        | (if ?c then _ else _) = _ => destruct c
        end;
    injection H as <-; cbn; try reflexivity; congruence.
Qed.

Lemma adsr_perform_bound (n : nat) :
  forall x x' out,
    adsr_perform n x = Some (x', out) -> phaseFunc x = phase_ptr (phase x) ->
    phaseFunc x' = phase_ptr (phase x').
Proof.
  induction n as [| n IH]; intros x x' out H Hb; cbn [adsr_perform] in H.
  - injection H as <- _. exact Hb.
  - bind_inv H. bind_inv H. injection H as <- _.
    destruct p as [x2 out2]. cbn [fst].
    eapply IH; [eassumption |].
    eapply call_phaseFunc_bound; eassumption.
Qed.

(** Whatever messages an object has seen since its construction, and
    whatever blocks it has rendered without a division by zero, its stored
    times lie in [0, 10000], its sustain level and gain in [0, 1], its
    shape exponents are at most 10 and at least 0.1 up to the rounding of
    the double operations, its sample rate per millisecond is the sample
    rate over 1000, and the bound phase function is the one of its
    phase. *)
Theorem reachable_invariants (x : t_adsr_tilde) :
  reachable x ->
  0 <= attackTime x <= 10000 /\ 0 <= decayTime x <= 10000 /\
  0 <= releaseTime x <= 10000 /\ 0 <= sustainLevel x <= 1 /\
  0 <= gain x <= 1 /\
  0.1 * (1 - rounding_slack) <= attackShape x <= 10 /\
  0.1 * (1 - rounding_slack) <= releaseShape x <= 10 /\
  sampleratems x == samplerate x / 1000 /\
  phaseFunc x = phase_ptr (phase x).
Proof.
  intros Hx.
  assert (Hsh : 0.1 * (1 - rounding_slack) <= attackShape x <= 10 /\
                0.1 * (1 - rounding_slack) <= releaseShape x <= 10)
    by (pose proof (reachable_shapes x Hx); unfold rounding_slack; lra).
  destruct Hsh as (Hash & Hrsh).
  pose proof (reachable_sampleratems x Hx) as Hms.
  assert (H : (0 <= attackTime x <= 10000 /\ 0 <= decayTime x <= 10000 /\
               0 <= releaseTime x <= 10000 /\ 0 <= sustainLevel x <= 1 /\
               0 <= gain x <= 1) /\ phaseFunc x = phase_ptr (phase x)).
  { clear Hash Hrsh Hms.
    induction Hx as [f | x m _ IH | x x' n out _ IH Hrun].
    - cbn. repeat split; lra.
    - destruct IH as (IH & Hb).
      assert (Hc1 : forall f, 0 <= clamp f 0 10000 <= 10000)
        by (intros; apply clamp_range; lra).
      assert (Hc2 : forall f, 0 <= clamp f 0 1 <= 1)
        by (intros; apply clamp_range; lra).
      destruct m; cbn [dispatch].
      + split; [exact IH | exact Hb].
      + unfold adsr_trigger_start.
        destruct (negb (startAtCurrentEnv x)); split; try exact IH;
          reflexivity.
      + unfold adsr_trigger_stop.
        destruct (phase_neqb (phase x) Idle && phase_neqb (phase x) Release);
          split; try exact IH; try exact Hb; reflexivity.
      + split; [| exact Hb]. cbn. pose proof (Hc1 f). intuition.
      + split; [| exact Hb]. cbn. pose proof (Hc1 f). intuition.
      + split; [| exact Hb]. cbn. pose proof (Hc2 f). intuition.
      + split; [| exact Hb]. cbn.
        match goal with
        | |- context [clamp ?v 0 10000] => pose proof (Hc1 v)
        end. intuition.
      + split; [exact IH | exact Hb].
      + split; [exact IH | exact Hb].
      + split; [| exact Hb]. cbn. pose proof (Hc2 f). intuition.
    - destruct IH as (IH & Hb).
      split; [| eapply adsr_perform_bound; eassumption].
      apply adsr_perform_params in Hrun. unfold same_params in Hrun.
      repeat match goal with H : _ /\ _ |- _ => destruct H end.
      repeat split; cbn in *; congruence. }
  destruct H as ((Ha & Hd & Hr & Hs & Hg) & Hb).
  repeat split; try apply Ha; try apply Hd; try apply Hr; try apply Hs;
    try apply Hg; try apply Hash; try apply Hrsh; assumption.
Qed.





(** ** From Start to Sustain *)

Lemma adsr_perform_then (n m : nat) (x x1 x2 : t_adsr_tilde) (o1 o2 : list Q) :
  adsr_perform n x = Some (x1, o1) -> adsr_perform m x1 = Some (x2, o2) ->
  adsr_perform (n + m) x = Some (x2, o1 ++ o2).
Proof.
  intros H1 H2. rewrite adsr_perform_app, H1. cbn [bind fst snd].
  rewrite H2. reflexivity.
Qed.

(** Before the budget is spent the engine is still in the phase. *)
Lemma adsr_perform_phase_prefix (x : t_adsr_tilde) (j : nat) :
  currentSample x = 0%Z -> (Z.of_nat j < phase_samples x)%Z ->
  exists xj outj, adsr_perform j x = Some (xj, outj) /\ phase xj = phase x.
Proof.
  intros Hc Hj.
  destruct (adsr_perform_inside j x) as (xj & outj & Hrun & Hsame & _);
    [lia | lia |].
  exists xj, outj. split; [exact Hrun | apply Hsame].
Qed.

(** From the first Attack sample: Attack and Decay take their budgets, then
    Sustain. *)
Lemma attack_reaches_sustain (x : t_adsr_tilde) :
  phaseFunc x = ptr_attackPhase -> phase x = Attack ->
  currentSample x = 0%Z ->
  (1 <= attackPhaseSamples x)%Z -> (1 <= decayPhaseSamples x)%Z ->
  (exists x' out,
     adsr_perform
       (Z.to_nat (attackPhaseSamples x) + Z.to_nat (decayPhaseSamples x)) x
       = Some (x', out) /\
     phase x' = Sustain /\ phaseFunc x' = ptr_sustainPhase /\
     currentSample x' = 0%Z /\ same_params x x' /\
     currentEnv x'
       == sustainLevel x
          + (1 - sustainLevel x) / inject_Z (decayPhaseSamples x)) /\
  (forall j,
     (j < Z.to_nat (attackPhaseSamples x) + Z.to_nat (decayPhaseSamples x))%nat ->
     exists xj outj,
       adsr_perform j x = Some (xj, outj) /\
       (phase xj = Attack \/ phase xj = Decay)).
Proof.
  intros Hf Hph Hc Ha Hd.
  assert (Hn : phase_samples x = attackPhaseSamples x)
    by (unfold phase_samples; now rewrite Hf).
  destruct (adsr_perform_phase x) as (x1 & Hrun1 & _ & Hph1 & Hf1 & Hc1 & Hp1 & _);
    [exact Hc | lia | rewrite Hf; discriminate |].
  unfold next_phase in Hph1, Hf1. rewrite Hf in Hph1, Hf1. cbn in Hf1.
  rewrite Hn in Hrun1.
  assert (Hd1 : decayPhaseSamples x1 = decayPhaseSamples x).
  { unfold same_params in Hp1.
    repeat match goal with H : _ /\ _ |- _ => destruct H end. assumption. }
  assert (Hs1 : sustainLevel x1 = sustainLevel x).
  { unfold same_params in Hp1.
    repeat match goal with H : _ /\ _ |- _ => destruct H end. assumption. }
  assert (Hn1 : phase_samples x1 = decayPhaseSamples x)
    by (unfold phase_samples; now rewrite Hf1).
  destruct (adsr_perform_phase x1)
    as (x2 & Hrun2 & Hv2 & Hph2 & Hf2 & Hc2 & Hp2 & _);
    [exact Hc1 | lia | rewrite Hf1; discriminate |].
  unfold next_phase in Hph2, Hf2. rewrite Hf1 in Hph2, Hf2. cbn in Hf2.
  rewrite Hn1 in Hrun2, Hv2.
  split.
  - eexists x2, _.
    split; [eapply adsr_perform_then; eassumption |].
    split; [exact Hph2 |]. split; [exact Hf2 |]. split; [exact Hc2 |].
    split; [eapply same_params_trans; eassumption |].
    rewrite Hv2. unfold phase_curve. rewrite Hf1, Hd1, Hs1.
    rewrite progress_last by exact Hd. field.
    intros H'. rewrite <- (Qfloor_Z (decayPhaseSamples x)), H' in Hd.
    cbn in Hd. lia.
  - intros j Hj.
    destruct (Nat.lt_ge_cases j (Z.to_nat (attackPhaseSamples x))) as [Hlt | Hge].
    + destruct (adsr_perform_phase_prefix x j) as (xj & outj & Hrun & Hphj);
        [exact Hc | lia |].
      exists xj, outj. split; [exact Hrun | left; congruence].
    + destruct (adsr_perform_phase_prefix x1 (j - Z.to_nat (attackPhaseSamples x)))
        as (xj & outj & Hrun & Hphj); [exact Hc1 | lia |].
      eexists xj, _. split; [| right; congruence].
      replace j with (Z.to_nat (attackPhaseSamples x)
                      + (j - Z.to_nat (attackPhaseSamples x)))%nat at 1 by lia.
      eapply adsr_perform_then; eassumption.
Qed.

(** After Start the engine reaches Sustain after exactly the Attack and
    Decay budgets, preceded by the Startup budget on an object that starts
    from silence: at that sample count it is in Sustain with the counter 0,
    its last Decay sample one step above the sustain level, and at every
    smaller count it is still in Startup, Attack or Decay. *)
Theorem start_reaches_sustain (x : t_adsr_tilde) :
  (1 <= startupPhaseSamples x)%Z -> (1 <= attackPhaseSamples x)%Z ->
  (1 <= decayPhaseSamples x)%Z ->
  (exists x' out,
     adsr_perform
       ((if startAtCurrentEnv x then 0 else Z.to_nat (startupPhaseSamples x))
        + (Z.to_nat (attackPhaseSamples x) + Z.to_nat (decayPhaseSamples x)))
       (adsr_trigger_start x)
       = Some (x', out) /\
     phase x' = Sustain /\ phaseFunc x' = ptr_sustainPhase /\
     currentSample x' = 0%Z /\ same_params x x' /\
     currentEnv x'
       == sustainLevel x
          + (1 - sustainLevel x) / inject_Z (decayPhaseSamples x)) /\
  (forall j,
     (j < (if startAtCurrentEnv x then 0 else Z.to_nat (startupPhaseSamples x))
          + (Z.to_nat (attackPhaseSamples x) + Z.to_nat (decayPhaseSamples x)))%nat ->
     exists xj outj,
       adsr_perform j (adsr_trigger_start x) = Some (xj, outj) /\
       phase xj <> Sustain).
Proof.
  intros Hs Ha Hd.
  unfold adsr_trigger_start.
  destruct (startAtCurrentEnv x) eqn:Hmode; cbn [negb].
  - set (xs := enter_phase (set_phaseStartEnv x (currentEnv x)) Attack).
    destruct (attack_reaches_sustain xs) as (Hrun & Hpre);
      try reflexivity; try assumption.
    split; [exact Hrun |].
    intros j Hj. destruct (Hpre j Hj) as (xj & outj & Hr & [H | H]);
      exists xj, outj; (split; [exact Hr | congruence]).
  - set (xs := enter_phase (set_phaseStartEnv x (currentEnv x)) Startup).
    destruct (adsr_perform_phase xs)
      as (x1 & Hrun1 & _ & Hph1 & Hf1 & Hc1 & Hp1 & _);
      [reflexivity | exact Hs | discriminate |].
    change (phase_samples xs) with (startupPhaseSamples x) in Hrun1.
    change (next_phase xs) with Attack in Hph1, Hf1. cbn in Hf1.
    assert (Hcounts :
      attackPhaseSamples x1 = attackPhaseSamples x /\
      decayPhaseSamples x1 = decayPhaseSamples x /\
      sustainLevel x1 = sustainLevel x).
    { unfold same_params in Hp1.
      repeat match goal with H : _ /\ _ |- _ => destruct H end.
      repeat split; assumption. }
    destruct Hcounts as (Ea & Ed & Es).
    destruct (attack_reaches_sustain x1) as (Hrun & Hpre);
      try assumption; try lia.
    rewrite Ea, Ed, Es in Hrun. rewrite Ea, Ed in Hpre.
    destruct Hrun as (x' & out & Hrun & Hph & Hf & Hc & Hp & Hv).
    split.
    + eexists x', _.
      split; [eapply adsr_perform_then; eassumption |].
      split; [exact Hph |]. split; [exact Hf |]. split; [exact Hc |].
      split; [| exact Hv].
      eapply (same_params_trans x xs x'); [repeat split |].
      eapply same_params_trans; eassumption.
    + intros j Hj.
      destruct (Nat.lt_ge_cases j (Z.to_nat (startupPhaseSamples x))) as [Hlt | Hge].
      * destruct (adsr_perform_phase_prefix xs j) as (xj & outj & Hr & Hphj);
          [reflexivity | change (phase_samples xs) with (startupPhaseSamples x); lia |].
        exists xj, outj. split; [exact Hr |].
        rewrite Hphj. discriminate.
      * destruct (Hpre (j - Z.to_nat (startupPhaseSamples x))%nat)
          as (xj & outj & Hr & Hphj); [lia |].
        eexists xj, _. split; [| destruct Hphj; congruence].
        replace j with (Z.to_nat (startupPhaseSamples x)
                        + (j - Z.to_nat (startupPhaseSamples x)))%nat at 1 by lia.
        eapply adsr_perform_then; eassumption.
Qed.

(** ** The linear release *)

Lemma inject_Z_pos (n : Z) : (0 < n)%Z -> 0 < inject_Z n.
Proof.
  intros Hn. change 0 with (inject_Z 0). rewrite <- Zlt_Qlt. exact Hn.
Qed.

(** Progress [c / n] lies in [0, 1] for a counter within the divisor. *)
Lemma progress_unit (c n : Z) :
  (0 <= c <= n)%Z -> (0 < n)%Z -> 0 <= inject_Z c / inject_Z n <= 1.
Proof.
  intros Hc Hn. pose proof (inject_Z_pos n Hn) as Hpos.
  split.
  - apply Qle_shift_div_l; [exact Hpos |].
    setoid_replace (0 * inject_Z n) with (inject_Z 0) by (cbn; ring).
    rewrite <- Zle_Qle. lia.
  - apply Qle_shift_div_r; [exact Hpos |].
    setoid_replace (1 * inject_Z n) with (inject_Z n) by ring.
    rewrite <- Zle_Qle. lia.
Qed.

Lemma progress_mono (c n : Z) :
  (0 < n)%Z -> inject_Z c / inject_Z n <= inject_Z (c + 1) / inject_Z n.
Proof.
  intros Hn. pose proof (inject_Z_pos n Hn) as Hpos.
  unfold Qdiv. apply Qmult_le_compat_r.
  - rewrite <- Zle_Qle. lia.
  - apply Qlt_le_weak, Qinv_lt_0_compat, Hpos.
Qed.

(** With the linear release shape, Stop in a phase other than Idle and
    Release, at a non-negative envelope value [v], is followed by exactly
    [N = releasePhaseSamples >= 2] Release samples, the [j]th of which
    (from 0) is [v * (1 - j / (N - 1))]: they start at [v], never rise,
    end at exactly 0, and the last one enters Idle. *)
Theorem release_linear_ramp (x : t_adsr_tilde) :
  phase_neqb (phase x) Idle && phase_neqb (phase x) Release = true ->
  Qeq_bool (releaseShape x) 1 = true -> (2 <= releasePhaseSamples x)%Z ->
  0 <= currentEnv x ->
  (exists x',
     adsr_perform (Z.to_nat (releasePhaseSamples x)) (adsr_trigger_stop x)
       = Some (x',
               map (fun j => phase_curve (adsr_trigger_stop x) (Z.of_nat j)
                             * gain x)
                 (seq 0 (Z.to_nat (releasePhaseSamples x)))) /\
     phase x' = Idle /\ currentSample x' = 0%Z /\ same_params x x') /\
  (forall j,
     phase_curve (adsr_trigger_stop x) j
       == currentEnv x
          * (1 - inject_Z j / inject_Z (releasePhaseSamples x - 1))) /\
  (forall j,
     phase_curve (adsr_trigger_stop x) (j + 1)
       <= phase_curve (adsr_trigger_stop x) j) /\
  phase_curve (adsr_trigger_stop x) 0 == currentEnv x /\
  phase_curve (adsr_trigger_stop x) (releasePhaseSamples x - 1) == 0.
Proof.
  intros Hph Hshape Hn Hv.
  unfold adsr_trigger_stop. rewrite Hph.
  set (xr := enter_phase (set_phaseStartEnv x (currentEnv x)) Release).
  assert (Hcurve : forall j,
    phase_curve xr j
      == currentEnv x
         * (1 - inject_Z j / inject_Z (releasePhaseSamples x - 1))).
  { intros j. unfold phase_curve. cbn. unfold power_lerp.
    rewrite Hshape. ring. }
  split; [| split; [exact Hcurve | split; [| split]]].
  - destruct (adsr_perform_phase xr)
      as (x' & Hrun & _ & Hph' & _ & Hc' & Hp' & _);
      [reflexivity | cbn; lia | intros _; cbn; lia |].
    exists x'. split; [exact Hrun |]. split; [exact Hph' |].
    split; [exact Hc' |].
    eapply (same_params_trans x xr x'); [repeat split | exact Hp'].
  - intros j. rewrite !Hcurve.
    pose proof (progress_mono j (releasePhaseSamples x - 1)) as Hm.
    assert (Hm' : inject_Z j / inject_Z (releasePhaseSamples x - 1)
                  <= inject_Z (j + 1) / inject_Z (releasePhaseSamples x - 1))
      by (apply Hm; lia).
    nra.
  - rewrite Hcurve, progress_zero. ring.
  - rewrite Hcurve, progress_full by lia. ring.
Qed.

(** ** Time messages in the middle of a phase *)

(** A time message is applied at once, with no regard for the counter: when
    an attack message lowers the Attack count below the counter, the next
    sample computes a progress above 1, so with the linear shape and a start
    value below 1 the envelope overshoots 1 on that sample, which also
    enters Decay. *)
Theorem attack_shortened_overshoots (x : t_adsr_tilde) (f : Q) :
  phaseFunc x = ptr_attackPhase -> Qeq_bool (attackShape x) 1 = true ->
  phaseStartEnv x < 1 ->
  (attackPhaseSamples (adsr_attack x f) < currentSample x)%Z ->
  exists x',
    call_phaseFunc (adsr_attack x f) = Some x' /\ 1 < currentEnv x' /\
    phase x' = Decay.
Proof.
  intros Hf Hshape Hstart Hlt.
  assert (Hn : (1 <= attackPhaseSamples (adsr_attack x f))%Z)
    by (cbn; apply Z.le_max_l).
  assert (Hfy : phaseFunc (adsr_attack x f) = ptr_attackPhase) by exact Hf.
  assert (Hcy : currentSample (adsr_attack x f) = currentSample x)
    by reflexivity.
  assert (Hsy : phaseStartEnv (adsr_attack x f) = phaseStartEnv x)
    by reflexivity.
  assert (Hshy : attackShape (adsr_attack x f) = attackShape x)
    by reflexivity.
  rewrite <- Hcy in Hlt.
  remember (adsr_attack x f) as y eqn:Ey. clear Ey.
  unfold call_phaseFunc. rewrite Hfy. unfold attackPhase.
  rewrite int_div_some by lia. cbn [bind].
  cbn [currentSample set_currentSample set_currentEnv attackPhaseSamples].
  destruct (Z.leb_spec (attackPhaseSamples y) (currentSample y + 1)); [| lia].
  eexists. split; [reflexivity |]. split; [| reflexivity].
  cbn. unfold power_lerp. rewrite Hshy, Hshape, Hsy.
  assert (Hp : 1 < inject_Z (currentSample y) / inject_Z (attackPhaseSamples y)).
  { apply Qlt_shift_div_l; [apply inject_Z_pos; lia |].
    setoid_replace (1 * inject_Z (attackPhaseSamples y))
      with (inject_Z (attackPhaseSamples y)) by ring.
    rewrite <- Zlt_Qlt. exact Hlt. }
  nra.
Qed.

(** When the Attack count is 0, as it is until the first attack message,
    Start cannot be rendered: the first Attack sample divides by zero, so
    every block that reaches it fails, right after Start on an object that
    attacks from the current value and after the Startup budget on one that
    starts from silence. *)
Theorem unset_attack_count_fails (x : t_adsr_tilde) (n : nat) :
  attackPhaseSamples x = 0%Z -> (1 <= startupPhaseSamples x)%Z ->
  adsr_perform
    ((if startAtCurrentEnv x then 0 else Z.to_nat (startupPhaseSamples x))
     + S n)
    (adsr_trigger_start x) = None.
Proof.
  intros Ha Hs. unfold adsr_trigger_start.
  destruct (startAtCurrentEnv x); cbn [negb].
  - cbn [Nat.add]. apply adsr_perform_fails.
    apply call_phaseFunc_none_iff. exact Ha.
  - set (xs := enter_phase (set_phaseStartEnv x (currentEnv x)) Startup).
    destruct (adsr_perform_phase xs)
      as (x1 & Hrun1 & _ & _ & Hf1 & _ & Hp1 & _);
      [reflexivity | exact Hs | discriminate |].
    change (phase_samples xs) with (startupPhaseSamples x) in Hrun1.
    change (next_phase xs) with Attack in Hf1. cbn in Hf1.
    rewrite adsr_perform_app, Hrun1. cbn [bind fst snd].
    rewrite adsr_perform_fails; [reflexivity |].
    apply call_phaseFunc_none_iff. rewrite Hf1.
    unfold same_params in Hp1.
    repeat match goal with H : _ /\ _ |- _ => destruct H end.
    cbn in *. congruence.
Qed.

(** ** Blocks and gain *)

(** Rendering [n + m] samples in one block gives the object and the samples
    of rendering [n] and then [m]: the block size does not show in the
    signal, and a failure in either block is a failure of the whole. *)
Theorem render_blocks_compose (n m : nat) (x : t_adsr_tilde) :
  adsr_perform (n + m) x
    = (r1 <- adsr_perform n x ;;
       r2 <- adsr_perform m (fst r1) ;;
       ret (fst r2, snd r1 ++ snd r2)).
Proof.
  exact (adsr_perform_app n m x).
Qed.

(** No phase function reads the gain. *)
Lemma call_phaseFunc_gain (x : t_adsr_tilde) (g : Q) :
  call_phaseFunc (set_gain x g)
    = option_map (fun y => set_gain y g) (call_phaseFunc x).
Proof.
  unfold call_phaseFunc, startupPhase, attackPhase, decayPhase, sustainPhase,
    releasePhase, idlePhase, ret, int_div.
  cbn [phaseFunc set_gain currentSample startupPhaseSamples attackPhaseSamples
       decayPhaseSamples releasePhaseSamples].
  destruct (phaseFunc x); try reflexivity;
    match goal with
    | |- context [(?d =? 0)%Z] => destruct (d =? 0)%Z
    end; try reflexivity; cbn [bind option_map];
    cbn [currentSample set_currentSample set_currentEnv set_gain
         startupPhaseSamples attackPhaseSamples decayPhaseSamples
         releasePhaseSamples];
    match goal with
    | |- context [if ?c then _ else _] => destruct c
    end; reflexivity.
Qed.

(** The gain scales the samples written and nothing else: with another
    gain the same block leaves the same object, but for the gain, and each
    sample is the envelope value times the other gain. *)
Theorem gain_scales_output (n : nat) :
  forall x g1 g2 x1 o1,
    adsr_perform n (set_gain x g1) = Some (x1, o1) ->
    exists o2,
      adsr_perform n (set_gain x g2) = Some (set_gain x1 g2, o2) /\
      Forall2 (fun a b => a * g2 == b * g1) o1 o2.
Proof.
  induction n as [| n IH]; intros x g1 g2 x1 o1 H; cbn [adsr_perform] in *.
  - injection H as <- <-. exists []. split; [| constructor].
    destruct x; reflexivity.
  - rewrite call_phaseFunc_gain in *.
    destruct (call_phaseFunc x) as [y |]; [| discriminate H].
    cbn [option_map bind] in *.
    destruct (adsr_perform n (set_gain y g1)) as [[x1' o1'] |] eqn:Hrun;
      [| discriminate H].
    cbn [bind fst snd] in H. injection H as <- <-.
    destruct (IH y g1 g2 x1' o1' Hrun) as (o2 & Hrun2 & Hrel).
    exists (currentEnv (set_gain y g2) * gain (set_gain y g2) :: o2).
    rewrite Hrun2. split; [reflexivity |].
    constructor; [cbn; ring | exact Hrel].
Qed.

(** ** The linear ramps of Startup and Decay *)

(** On an object that starts from silence, Start at a non-negative envelope
    value [v] is followed by exactly [N = startupPhaseSamples] Startup
    samples, the [j]th of which is [v * (1 - j / N)] whatever the shape
    exponents: they start at [v] and never rise, and the [N]th enters Attack
    with the start value 0. *)
Theorem startup_ramp (x : t_adsr_tilde) :
  startAtCurrentEnv x = false -> (1 <= startupPhaseSamples x)%Z ->
  0 <= currentEnv x ->
  (exists x',
     adsr_perform (Z.to_nat (startupPhaseSamples x)) (adsr_trigger_start x)
       = Some (x',
               map (fun j => phase_curve (adsr_trigger_start x) (Z.of_nat j)
                             * gain x)
                 (seq 0 (Z.to_nat (startupPhaseSamples x)))) /\
     phase x' = Attack /\ phaseStartEnv x' = 0 /\ currentSample x' = 0%Z /\
     same_params x x') /\
  (forall j,
     phase_curve (adsr_trigger_start x) j
       == currentEnv x
          * (1 - inject_Z j / inject_Z (startupPhaseSamples x))) /\
  (forall j,
     phase_curve (adsr_trigger_start x) (j + 1)
       <= phase_curve (adsr_trigger_start x) j) /\
  phase_curve (adsr_trigger_start x) 0 == currentEnv x.
Proof.
  intros Hmode Hn Hv.
  unfold adsr_trigger_start. rewrite Hmode. cbn [negb].
  set (xs := enter_phase (set_phaseStartEnv x (currentEnv x)) Startup).
  assert (Hcurve : forall j,
    phase_curve xs j
      == currentEnv x * (1 - inject_Z j / inject_Z (startupPhaseSamples x))).
  { intros j. unfold phase_curve. cbn. unfold power_lerp.
    change (Qeq_bool 1 1) with true. cbv iota. ring. }
  split; [| split; [exact Hcurve | split]].
  - destruct (adsr_perform_phase xs)
      as (x' & Hrun & _ & Hph' & _ & Hc' & Hp' & Hst);
      [reflexivity | exact Hn | discriminate |].
    exists x'. split; [exact Hrun |]. split; [exact Hph' |].
    split; [exact Hst |]. split; [exact Hc' |].
    eapply (same_params_trans x xs x'); [repeat split | exact Hp'].
  - intros j. rewrite !Hcurve.
    pose proof (progress_mono j (startupPhaseSamples x) ltac:(lia)) as Hm.
    nra.
  - rewrite Hcurve, progress_zero. ring.
Qed.

(** Decay entered with the counter 0 and a sustain level at most 1 writes
    exactly [N = decayPhaseSamples] samples, the [j]th of which is
    [1 - (1 - sustain) * j / N]: they start at 1, never rise, stay at or
    above the sustain level, and the [N]th enters Sustain. *)
Theorem decay_ramp (x : t_adsr_tilde) :
  phaseFunc x = ptr_decayPhase -> currentSample x = 0%Z ->
  (1 <= decayPhaseSamples x)%Z -> sustainLevel x <= 1 ->
  (exists x',
     adsr_perform (Z.to_nat (decayPhaseSamples x)) x
       = Some (x',
               map (fun j => phase_curve x (Z.of_nat j) * gain x)
                 (seq 0 (Z.to_nat (decayPhaseSamples x)))) /\
     phase x' = Sustain /\ currentSample x' = 0%Z /\ same_params x x') /\
  (forall j,
     phase_curve x j
       == 1 - (1 - sustainLevel x)
              * (inject_Z j / inject_Z (decayPhaseSamples x))) /\
  (forall j, phase_curve x (j + 1) <= phase_curve x j) /\
  (forall j, (0 <= j <= decayPhaseSamples x)%Z ->
             sustainLevel x <= phase_curve x j <= 1) /\
  phase_curve x 0 == 1.
Proof.
  intros Hf Hc Hn Hs.
  assert (Hb : phase_samples x = decayPhaseSamples x)
    by (unfold phase_samples; now rewrite Hf).
  assert (Hcurve : forall j,
    phase_curve x j
      == 1 - (1 - sustainLevel x)
             * (inject_Z j / inject_Z (decayPhaseSamples x))).
  { intros j. unfold phase_curve. rewrite Hf. ring. }
  split; [| split; [exact Hcurve | split; [| split]]].
  - destruct (adsr_perform_phase x)
      as (x' & Hrun & _ & Hph' & _ & Hc' & Hp' & _);
      [exact Hc | lia | rewrite Hf; discriminate |].
    rewrite Hb in Hrun. unfold next_phase in Hph'. rewrite Hf in Hph'.
    exists x'. repeat split; try assumption; apply Hp'.
  - intros j. rewrite !Hcurve.
    pose proof (progress_mono j (decayPhaseSamples x) ltac:(lia)) as Hm.
    nra.
  - intros j Hj. rewrite Hcurve.
    pose proof (progress_unit j (decayPhaseSamples x) Hj ltac:(lia)) as Hp.
    nra.
  - rewrite Hcurve, progress_zero. ring.
Qed.

(** ** The envelope stays in [0, 1] *)

(** [std::pow] maps the unit interval to itself for a positive exponent. *)
Hypothesis pow_unit : forall a s, 0 <= a <= 1 -> 0 < s -> 0 <= pow a s <= 1.

(** An object whose counts allow every phase to run, whose levels are in
    [0, 1], whose shape exponents are positive and whose counter is inside
    the budget of the phase in progress. *)
Definition steady (x : t_adsr_tilde) : Prop :=
  (1 <= startupPhaseSamples x)%Z /\ (1 <= attackPhaseSamples x)%Z /\
  (1 <= decayPhaseSamples x)%Z /\ (2 <= releasePhaseSamples x)%Z /\
  0 < attackShape x /\ 0 < releaseShape x /\
  0 <= sustainLevel x <= 1 /\ 0 <= gain x <= 1 /\
  0 <= phaseStartEnv x <= 1 /\ 0 <= currentEnv x <= 1 /\
  (0 <= currentSample x)%Z /\
  match phaseFunc x with
  | ptr_sustainPhase | ptr_idlePhase => True
  | _ => (currentSample x < phase_samples x)%Z
  end.

(** The messages that change neither a count nor the sample rate. *)
Definition keeps_counts (m : message) : bool :=
  match m with
  | msg_start | msg_stop | msg_sustain _ | msg_g _
  | msg_attackshape _ | msg_releaseshape _ => true
  | msg_dsp _ | msg_attack _ | msg_decay _ | msg_release _ => false
  end.

Lemma power_lerp_unit (start end_ p shape : Q) :
  0 <= start <= 1 -> 0 <= end_ <= 1 -> 0 <= p <= 1 -> 0 < shape ->
  0 <= power_lerp start end_ p shape <= 1.
Proof.
  intros Hs He Hp Hsh.
  assert (Hconv : forall t, 0 <= t <= 1 -> 0 <= start + (end_ - start) * t <= 1)
    by (intros t Ht; nra).
  unfold power_lerp. destruct (Qeq_bool shape 1); [apply Hconv, Hp |].
  destruct (Qltb end_ start); apply Hconv.
  - assert (H1 : 0 <= 1 - p <= 1) by lra.
    pose proof (pow_unit (1 - p) shape H1 Hsh). lra.
  - apply pow_unit; assumption.
Qed.

Ltac steady_parts H :=
  destruct H as (Hsps & Haps & Hdps & Hrps & Hash & Hrsh & Hsl & Hg & Hpse
                 & Hce & Hcs & Hin).

Lemma call_phaseFunc_steady (x : t_adsr_tilde) :
  steady x -> exists x', call_phaseFunc x = Some x' /\ steady x'.
Proof.
  intros H. steady_parts H.
  unfold call_phaseFunc, startupPhase, attackPhase, decayPhase, sustainPhase,
    releasePhase, idlePhase, ret.
  unfold phase_samples in Hin.
  destruct (phaseFunc x) eqn:Hf.
  - rewrite int_div_some by lia. cbn [bind].
    pose proof (progress_unit (currentSample x) (startupPhaseSamples x)
                  ltac:(lia) ltac:(lia)) as Hp.
    pose proof (power_lerp_unit (phaseStartEnv x) 0 _ 1 Hpse
                  ltac:(lra) Hp ltac:(lra)) as Hv.
    cbn [currentSample set_currentSample set_currentEnv startupPhaseSamples].
    destruct (Z.leb_spec (startupPhaseSamples x) (currentSample x + 1));
      (eexists; split; [reflexivity |]); unfold steady, phase_samples; cbn;
      try rewrite Hf; repeat split; try assumption; try lia;
      first [lra | nra].
  - rewrite int_div_some by lia. cbn [bind].
    pose proof (progress_unit (currentSample x) (attackPhaseSamples x)
                  ltac:(lia) ltac:(lia)) as Hp.
    pose proof (power_lerp_unit (phaseStartEnv x) 1 _ (attackShape x) Hpse
                  ltac:(lra) Hp Hash) as Hv.
    cbn [currentSample set_currentSample set_currentEnv attackPhaseSamples].
    destruct (Z.leb_spec (attackPhaseSamples x) (currentSample x + 1));
      (eexists; split; [reflexivity |]); unfold steady, phase_samples; cbn;
      try rewrite Hf; repeat split; try assumption; try lia;
      first [lra | nra].
  - rewrite int_div_some by lia. cbn [bind].
    pose proof (progress_unit (currentSample x) (decayPhaseSamples x)
                  ltac:(lia) ltac:(lia)) as Hp.
    assert (Hv : 0 <= (1 - inject_Z (currentSample x)
                           / inject_Z (decayPhaseSamples x))
                      * (1 - sustainLevel x) + sustainLevel x <= 1) by nra.
    cbn [currentSample set_currentSample set_currentEnv decayPhaseSamples].
    destruct (Z.leb_spec (decayPhaseSamples x) (currentSample x + 1));
      (eexists; split; [reflexivity |]); unfold steady, phase_samples; cbn;
      try rewrite Hf; repeat split; try assumption; try lia;
      first [lra | nra].
  - eexists; split; [reflexivity |]. unfold steady, phase_samples. cbn.
    rewrite Hf. repeat split; try assumption; try lia; lra.
  - rewrite int_div_some by lia. cbn [bind].
    pose proof (progress_unit (currentSample x) (releasePhaseSamples x - 1)
                  ltac:(lia) ltac:(lia)) as Hp.
    pose proof (power_lerp_unit (phaseStartEnv x) 0 _ (releaseShape x) Hpse
                  ltac:(lra) Hp Hrsh) as Hv.
    cbn [currentSample set_currentSample set_currentEnv releasePhaseSamples].
    destruct (Z.leb_spec (releasePhaseSamples x) (currentSample x + 1));
      (eexists; split; [reflexivity |]); unfold steady, phase_samples; cbn;
      try rewrite Hf; repeat split; try assumption; try lia;
      first [lra | nra].
  - eexists; split; [reflexivity |]. unfold steady, phase_samples. cbn.
    rewrite Hf. repeat split; try assumption; try lia; lra.
Qed.

Lemma dispatch_steady (x : t_adsr_tilde) (m : message) :
  steady x -> keeps_counts m = true -> steady (dispatch x m).
Proof.
  intros H Hm. pose proof H as H0. steady_parts H.
  destruct m; try discriminate Hm; cbn [dispatch].
  - unfold adsr_trigger_start.
    destruct (negb (startAtCurrentEnv x)); unfold steady, phase_samples; cbn;
      repeat split; try assumption; try lia; lra.
  - unfold adsr_trigger_stop.
    destruct (phase_neqb (phase x) Idle && phase_neqb (phase x) Release).
    + unfold steady, phase_samples; cbn;
        repeat split; try assumption; try lia; lra.
    + exact H0.
  - pose proof (clamp_range f 0 1 ltac:(lra)) as Hc.
    unfold steady, phase_samples in *. cbn.
    repeat split; try assumption; lra.
  - pose proof (map_shape_to_exponent_range f) as Hc.
    unfold steady, phase_samples in *. cbn.
    repeat split; try assumption; lra.
  - pose proof (map_shape_to_exponent_range f) as Hc.
    unfold steady, phase_samples in *. cbn.
    repeat split; try assumption; lra.
  - pose proof (clamp_range f 0 1 ltac:(lra)) as Hc.
    unfold steady, phase_samples in *. cbn.
    repeat split; try assumption; lra.
Qed.

Lemma adsr_perform_steady (n : nat) :
  forall x,
    steady x ->
    exists x' out,
      adsr_perform n x = Some (x', out) /\ steady x' /\
      Forall (fun v => 0 <= v <= 1) out.
Proof.
  induction n as [| n IH]; intros x H.
  - exists x, []. split; [reflexivity |]. split; [exact H | constructor].
  - destruct (call_phaseFunc_steady x H) as (x1 & Hstep & H1).
    destruct (IH x1 H1) as (x' & out & Hrun & H' & Hout).
    exists x', (currentEnv x1 * gain x1 :: out).
    split; [cbn [adsr_perform]; rewrite Hstep; cbn [bind]; rewrite Hrun;
            reflexivity |].
    split; [exact H' |]. constructor; [| exact Hout].
    steady_parts H1. nra.
Qed.

(** Between two time or sample-rate messages the engine cannot go wrong.
    From a steady object, Start, Stop and the sustain, gain and shape
    messages lead to a steady object, and so does every block: it is
    rendered without a division by zero, each sample it writes lies in
    [0, 1], and so does the envelope value it leaves. *)
Theorem steady_invariant (x : t_adsr_tilde) :
  steady x ->
  (forall m, keeps_counts m = true -> steady (dispatch x m)) /\
  (forall n,
     exists x' out,
       adsr_perform n x = Some (x', out) /\ steady x' /\
       0 <= currentEnv x' <= 1 /\ Forall (fun v => 0 <= v <= 1) out).
Proof.
  intros H. split.
  - intros m Hm. apply dispatch_steady; assumption.
  - intros n. destruct (adsr_perform_steady n x H) as (x' & out & Hrun & H' & Ho).
    exists x', out. repeat split; try assumption; apply H'.
Qed.

End Render.

(** ** An instance of [pow] *)

Lemma pow_int_comp (a a' s : Q) : a == a' -> pow_int a s == pow_int a' s.
Proof.
  intros Ha. unfold pow_int. now rewrite Ha.
Qed.

Lemma pow_int_zero (s : Q) : 0 < s -> pow_int 0 s == 0.
Proof.
  intros Hs. unfold pow_int. apply Qpower_0.
  intros Hc. pose proof (Qle_ceiling s) as Hle. rewrite Hc in Hle.
  change (inject_Z 0) with 0 in Hle. lra.
Qed.

Lemma pow_int_one (s : Q) : pow_int 1 s == 1.
Proof.
  unfold pow_int. apply Qpower_1.
Qed.

(** ** The claims at concrete inputs *)

(** The attack count of a new object, at its 44100 Hz, for an attack time
    of 1 ms: the product 44.1 truncated, 44. *)
Lemma phase_samples_truncated_witness :
  reachable pow_int (adsr_new 0) /\
  derived_count (attackPhaseSamples (adsr_attack (adsr_new 0) 1))
    (attackTime (adsr_attack (adsr_new 0) 1)) 44100 /\
  attackPhaseSamples (adsr_attack (adsr_new 0) 1) = 44%Z.
Proof.
  split; [apply reach_new |].
  split; [| reflexivity].
  exact (proj1 (proj1
    (phase_samples_truncated pow_int (adsr_new 0) 1 44100
       (reach_new pow_int 0)
       ltac:(split; vm_compute; congruence)
       ltac:(split; vm_compute; congruence)))).
Defined.

(** C4 fails as stated: at 44100 Hz an attack time of 1/16 ms is 2.75625
    samples, which the setter truncates to 2 and the specification's rule
    rounds to 3. *)
Lemma phase_samples_not_rounded :
  attackPhaseSamples
    (dispatch_all (adsr_new 0) [msg_dsp 44100; msg_attack (1 # 16)]) = 2%Z /\
  spec_phase_samples (1 # 16) 44100 = 3%Z /\
  attackPhaseSamples
    (dispatch_all (adsr_new 0) [msg_dsp 44100; msg_attack (1 # 16)])
    <> spec_phase_samples (1 # 16) 44100.
Proof.
  repeat split. vm_compute. discriminate.
Qed.

(** Why the count is fixed only up to rounding: at 37800 Hz the double
    [37800.0 / 1000] is just below 37.8, so the product for an attack time
    of 25 ms is 944.9999999999999 and the code stores 944, one less than
    the integer part 945 of the exact product.  The two iterations order
    the operations differently and can differ in the same way: for 350 ms
    at 44100 Hz the first stores 15434, the second 15435. *)
Lemma double_product_below_integer :
  Doubles.phase_samples 25 (Doubles.sampleratems 37800) = Some 944%Z /\
  trunc_phase_samples 25 37800 = 945%Z /\
  derived_count 944 25 37800 /\
  Doubles.phase_samples_v1 350 44100 = Some 15434%Z /\
  Doubles.phase_samples 350 (Doubles.sampleratems 44100) = Some 15435%Z.
Proof.
  split; [vm_compute; reflexivity |].
  split; [vm_compute; reflexivity |].
  split; [| split; vm_compute; reflexivity].
  exists 944%Z. split; [reflexivity |].
  split; [split; vm_compute; congruence |].
  split; vm_compute; first [reflexivity | congruence].
Qed.

(** C7 fails as stated: for the shape input -1 the code computes
    [1.0 + (-1.0) * 0.9] in doubles and stores 0.09999999999999998, which is
    below 0.1, the lower end of the claimed range. *)
#[warnings="-inexact-float"] Lemma shape_exponent_below_tenth :
  exists q : Q,
    Doubles.to_Q (Doubles.map_shape_to_exponent (-1)) = Some q /\
    q == 900719925474099 # 9007199254740992 /\ q < 0.1 /\
    (Doubles.map_shape_to_exponent (-1) <? 0.1)%float = true /\
    ~ (0.1 <= q <= 1).
Proof.
  eexists. split; [vm_compute; reflexivity |].
  split; [vm_compute; reflexivity |].
  split; [vm_compute; reflexivity |].
  split; [vm_compute; reflexivity |].
  intros [H _]. vm_compute in H. apply H. reflexivity.
Qed.

(** Every input below -1 is clamped to -1 and stores that same exponent. *)
Lemma saturated_shape_exponent (f : float) :
  (f <? -1)%float = true ->
  Doubles.map_shape_to_exponent f = Doubles.map_shape_to_exponent (-1).
Proof.
  intros H. unfold Doubles.map_shape_to_exponent, Doubles.clamp.
  rewrite H. reflexivity.
Qed.

(** C5 fails as stated: a new object stores decay time 0.1, release time
    0.2 and attack shape exponent 2, not 100, 200 and 1. *)
Lemma adsr_new_not_spec_defaults :
  ~ spec_defaults (adsr_new 0) /\
  ~ decayTime (adsr_new 0) == 100 /\ ~ releaseTime (adsr_new 0) == 200 /\
  ~ attackShape (adsr_new 0) == 1.
Proof.
  repeat split; try (intros H; vm_compute in H; discriminate H).
  intros (_ & H & _). vm_compute in H. discriminate H.
Qed.

(** C9 fails as stated: on an object that starts from silence the release
    setter stores 97 for the input 100, whose clamp is 100; and the shape
    setters store 5.5 for the input 0.5, whose clamp is 0.5. *)
Lemma setters_not_all_clamps :
  releaseTime (adsr_release (adsr_new 0) 100) == 97 /\
  clamp 100 0 10000 == 100 /\
  ~ releaseTime (adsr_release (adsr_new 0) 100) == clamp 100 0 10000 /\
  attackShape (adsr_attackshape (adsr_new 0) 0.5) == 5.5 /\
  ~ attackShape (adsr_attackshape (adsr_new 0) 0.5) == clamp 0.5 (-1) 1.
Proof.
  repeat split; try (intros H; vm_compute in H; discriminate H).
Qed.

(** The boundary theorem at the last Attack sample of the scenario, with
    [pow_int] for [pow]. *)
Lemma phase_boundary_values_witness :
  exists x' x'',
    call_phaseFunc pow_int (set_currentSample scenario_started 440) = Some x' /\
    call_phaseFunc pow_int x' = Some x'' /\
    phase x' = Decay /\ currentEnv x'' == 1.
Proof.
  assert (Hf : phaseFunc (set_currentSample scenario_started 440)
               = ptr_attackPhase) by (vm_compute; reflexivity).
  assert (H := phase_boundary_values pow_int pow_int_comp pow_int_zero
                 pow_int_one (set_currentSample scenario_started 440)
                 ltac:(vm_compute; congruence) ltac:(vm_compute; congruence)
                 ltac:(vm_compute; congruence) ltac:(vm_compute; congruence)
                 ltac:(vm_compute; reflexivity) ltac:(vm_compute; reflexivity)
                 ltac:(vm_compute; reflexivity)).
  rewrite Hf in H.
  destruct H as (x' & x'' & H1 & H2 & H3 & _ & H4 & _).
  exists x', x''. repeat split; assumption.
Defined.

(** C2 fails as stated: in the scenario the last Attack sample, the 441st
    after Start, is 440/441, and the first Decay sample is 1; the two
    differ by 1/441, more than a thousandth. *)
Lemma attack_decay_boundary_gap :
  exists x' x'',
    (forall pow,
       option_map fst (adsr_perform pow 441 scenario_started) = Some x') /\
    (forall pow, call_phaseFunc pow x' = Some x'') /\
    phase x' = Decay /\ currentSample x' = 0%Z /\
    currentEnv x' == 440 # 441 /\ currentEnv x'' == 1 /\
    ~ Qabs (currentEnv x'' - currentEnv x') <= 1 # 1000.
Proof.
  eexists. eexists.
  split; [intros pow; vm_compute; reflexivity |].
  split; [intros pow; vm_compute; reflexivity |].
  repeat split. intros H. vm_compute in H. apply H. reflexivity.
Qed.

(** The Attack theorem on the scenario: 440 samples stay in Attack, the
    441st enters Decay with value 1 - 1/441. *)
Lemma attack_last_sample_witness :
  exists x',
    option_map fst (adsr_perform pow_int 441 scenario_started) = Some x' /\
    phase x' = Decay /\ currentEnv x' == 1 - 1 / 441.
Proof.
  destruct (attack_last_sample pow_int
              (dispatch_all (adsr_new 1) scenario_messages))
    as (x0 & out0 & x' & x'' & _ & _ & _ & _ & Hrun & Hph & _ & Hv & _);
    try reflexivity; try (vm_compute; congruence).
  exists x'. split; [| split; [exact Hph | exact Hv]].
  change scenario_started
    with (adsr_trigger_start (dispatch_all (adsr_new 1) scenario_messages)).
  change 441%nat
    with (Z.to_nat
            (attackPhaseSamples (dispatch_all (adsr_new 1) scenario_messages))).
  rewrite Hrun. reflexivity.
Defined.

(** C3 fails as stated: in the scenario the sample of index 440, the last
    Attack sample, is 440/441 and not 1; the engine is in Decay after it. *)
Lemma last_attack_sample_below_one :
  exists x' out,
    (forall pow, adsr_perform pow 441 scenario_started = Some (x', out)) /\
    phase x' = Decay /\ length out = 441%nat /\
    nth 440 out 0 == 440 # 441 /\ currentEnv x' == 440 # 441 /\
    ~ Qabs (nth 440 out 0 - 1) <= 1 # 1000.
Proof.
  eexists. eexists.
  split; [intros pow; vm_compute; reflexivity |].
  repeat split. intros H. vm_compute in H. apply H. reflexivity.
Qed.

(** The scenario 4852 samples after Start (441 of Attack, 4410 of Decay,
    one of Sustain): in Sustain, holding 0.7. *)
Definition scenario_sustaining : t_adsr_tilde :=
  Eval vm_compute in
    match adsr_perform pow_int 4852 scenario_started with
    | Some (x, _) => x
    | None => scenario_started
    end.

(** The Release theorem on the scenario: Stop in that Sustain phase captures
    the start value 0.7, and the last of the 8820 Release samples is 0. *)
Lemma release_last_sample_zero_witness :
  option_map fst (adsr_perform pow_int 4852 scenario_started)
    = Some scenario_sustaining /\
  phase scenario_sustaining = Sustain /\
  phaseStartEnv (adsr_trigger_stop scenario_sustaining) == 0.7 /\
  exists x0 x',
    option_map fst
      (adsr_perform pow_int (Z.to_nat 8819)
         (adsr_trigger_stop scenario_sustaining))
      = Some x0 /\
    phase x0 = Release /\ call_phaseFunc pow_int x0 = Some x' /\
    option_map fst
      (adsr_perform pow_int (Z.to_nat 8820)
         (adsr_trigger_stop scenario_sustaining))
      = Some x' /\
    currentEnv x' == 0 /\ phase x' = Idle.
Proof.
  split; [vm_compute; reflexivity |].
  split; [reflexivity |].
  split; [vm_compute; reflexivity |].
  destruct (release_last_sample_zero pow_int
              (set_phaseStartEnv scenario_sustaining
                 (currentEnv scenario_sustaining))
              ltac:(vm_compute; reflexivity) ltac:(vm_compute; congruence))
    as (x0 & out0 & p & x' & Hrun0 & Hph0 & _ & _ & _ & Hstep & Hv & Hph & Hrun).
  exists x0, x'.
  change (adsr_trigger_stop scenario_sustaining)
    with (enter_phase
            (set_phaseStartEnv scenario_sustaining
               (currentEnv scenario_sustaining)) Release).
  change (Z.to_nat 8819)
    with (Z.to_nat
            (releasePhaseSamples
               (set_phaseStartEnv scenario_sustaining
                  (currentEnv scenario_sustaining)) - 1)).
  rewrite Hrun0.
  change (Z.to_nat 8820)
    with (Z.to_nat
            (releasePhaseSamples
               (set_phaseStartEnv scenario_sustaining
                  (currentEnv scenario_sustaining)))).
  rewrite Hrun.
  repeat split; assumption.
Defined.

(** ** The further properties at concrete inputs *)

Lemma Qpower_positive_unit (a : Q) (p : positive) :
  0 <= a <= 1 -> 0 <= Qpower_positive a p <= 1.
Proof.
  intros Ha. induction p as [| p IH] using Pos.peano_ind.
  - exact Ha.
  - rewrite <- Pos.add_1_r, Qpower_plus_positive.
    change (Qpower_positive a 1) with a. nra.
Qed.

Lemma pow_int_unit (a s : Q) : 0 <= a <= 1 -> 0 < s -> 0 <= pow_int a s <= 1.
Proof.
  intros Ha Hs. unfold pow_int.
  pose proof (Qle_ceiling s) as Hle.
  destruct (Qceiling s) as [| p | p] eqn:Hc.
  - change (inject_Z 0) with 0 in Hle. lra.
  - apply Qpower_positive_unit, Ha.
  - assert (Hneg : inject_Z (Z.neg p) < 0)
      by (change 0 with (inject_Z 0); rewrite <- Zlt_Qlt; lia).
    lra.
Qed.

(** The scenario, configured and not yet triggered. *)
Definition scenario_configured : t_adsr_tilde :=
  dispatch_all (adsr_new 1) scenario_messages.

(** The scenario in Sustain, holding the sustain level. *)
Definition scenario_sustained : t_adsr_tilde :=
  set_currentEnv (enter_phase scenario_configured Sustain) 0.7.

Lemma adsr_perform_safe_witness :
  exists x' out,
    adsr_perform pow_int 600 scenario_started = Some (x', out) /\
    length out = 600%nat.
Proof.
  destruct (adsr_perform_safe pow_int 600 scenario_started
              ltac:(vm_compute; congruence) ltac:(vm_compute; congruence)
              ltac:(vm_compute; congruence) ltac:(vm_compute; congruence))
    as (x' & out & Hrun & Hlen & _).
  exists x', out. split; assumption.
Defined.

Lemma sustainPhase_holds_witness :
  adsr_perform pow_int 3 scenario_sustained
    = Some (set_currentEnv scenario_sustained (sustainLevel scenario_sustained),
            repeat (sustainLevel scenario_sustained * gain scenario_sustained) 3).
Proof.
  exact (sustainPhase_holds pow_int 2 scenario_sustained eq_refl).
Defined.

Lemma idlePhase_silent_witness :
  adsr_perform pow_int 3 (adsr_new 0)
    = Some (set_currentEnv (adsr_new 0) 0, repeat (0 * gain (adsr_new 0)) 3).
Proof.
  exact (proj1 (idlePhase_silent pow_int 2 (adsr_new 0) eq_refl)).
Defined.

Lemma phase_emits_curve_witness :
  exists x',
    option_map fst (adsr_perform pow_int 441 scenario_started) = Some x' /\
    phase x' = Decay /\ currentSample x' = 0%Z.
Proof.
  destruct (phase_emits_curve pow_int scenario_started
              ltac:(vm_compute; reflexivity) ltac:(vm_compute; congruence)
              ltac:(vm_compute; congruence))
    as (x' & Hrun & _ & Hph & _ & Hc & _).
  exists x'. split; [| split; [exact Hph | exact Hc]].
  change 441%nat with (Z.to_nat (phase_samples scenario_started)).
  rewrite Hrun. reflexivity.
Defined.

(** The invariants on the scenario with the attack shape input -1, the
    lower end of the exponents, triggered. *)
Lemma reachable_invariants_witness :
  reachable pow_int (dispatch_all scenario_started [msg_attackshape (-1)]) /\
  0 <= sustainLevel (dispatch_all scenario_started [msg_attackshape (-1)])
    <= 1 /\
  0.1 * (1 - rounding_slack)
    <= attackShape (dispatch_all scenario_started [msg_attackshape (-1)])
    <= 10 /\
  phaseFunc (dispatch_all scenario_started [msg_attackshape (-1)])
    = ptr_attackPhase.
Proof.
  assert (Hr : reachable pow_int
                 (dispatch_all scenario_started [msg_attackshape (-1)]))
    by (apply reachable_dispatch_all, reachable_dispatch_all, reach_new).
  split; [exact Hr |].
  pose proof (reachable_invariants pow_int _ Hr)
    as (_ & _ & _ & Hs & _ & Hash & _ & _ & Hb).
  split; [exact Hs |]. split; [exact Hash | exact Hb].
Defined.


Lemma start_reaches_sustain_witness :
  exists x',
    option_map fst (adsr_perform pow_int (441 + 4410) scenario_started)
      = Some x' /\
    phase x' = Sustain.
Proof.
  destruct (start_reaches_sustain pow_int scenario_configured
              ltac:(vm_compute; congruence) ltac:(vm_compute; congruence)
              ltac:(vm_compute; congruence))
    as ((x' & out & Hrun & Hph & _) & _).
  exists x'. split; [| exact Hph].
  change scenario_started with (adsr_trigger_start scenario_configured).
  change (441 + 4410)%nat
    with ((if startAtCurrentEnv scenario_configured then 0
           else Z.to_nat (startupPhaseSamples scenario_configured))
          + (Z.to_nat (attackPhaseSamples scenario_configured)
             + Z.to_nat (decayPhaseSamples scenario_configured)))%nat.
  rewrite Hrun. reflexivity.
Defined.

Lemma release_linear_ramp_witness :
  phase_curve pow_int (adsr_trigger_stop scenario_sustained) 0 == 0.7 /\
  phase_curve pow_int (adsr_trigger_stop scenario_sustained) 8819 == 0.
Proof.
  destruct (release_linear_ramp pow_int scenario_sustained
              ltac:(vm_compute; reflexivity) ltac:(vm_compute; reflexivity)
              ltac:(vm_compute; congruence) ltac:(vm_compute; congruence))
    as (_ & _ & _ & H0 & H1).
  split; [exact H0 | exact H1].
Defined.

Lemma attack_shortened_overshoots_witness :
  exists x',
    call_phaseFunc pow_int
      (adsr_attack (set_currentSample scenario_started 200) 0) = Some x' /\
    1 < currentEnv x' /\ phase x' = Decay.
Proof.
  exact (attack_shortened_overshoots pow_int
           (set_currentSample scenario_started 200) 0
           ltac:(vm_compute; reflexivity) ltac:(vm_compute; reflexivity)
           ltac:(vm_compute; reflexivity) ltac:(vm_compute; reflexivity)).
Defined.

Lemma unset_attack_count_fails_witness :
  attackPhaseSamples (adsr_dsp (adsr_new 1) 44100) = 0%Z /\
  adsr_perform pow_int 1 (adsr_trigger_start (adsr_dsp (adsr_new 1) 44100))
    = None.
Proof.
  split; [reflexivity |].
  exact (unset_attack_count_fails pow_int (adsr_dsp (adsr_new 1) 44100) 0
           ltac:(vm_compute; reflexivity) ltac:(vm_compute; congruence)).
Defined.

Lemma scenario_started_steady : steady scenario_started.
Proof.
  unfold steady.
  repeat split; try exact I; try (vm_compute; congruence);
    vm_compute; reflexivity.
Qed.

Lemma steady_invariant_witness :
  steady (adsr_trigger_stop scenario_started) /\
  exists x' out,
    adsr_perform pow_int 500 scenario_started = Some (x', out) /\
    0 <= currentEnv x' <= 1 /\ Forall (fun v => 0 <= v <= 1) out.
Proof.
  destruct (steady_invariant pow_int pow_int_unit scenario_started
              scenario_started_steady) as (Hmsg & Hrun).
  split; [exact (Hmsg msg_stop eq_refl) |].
  destruct (Hrun 500%nat) as (x' & out & H & _ & Hv & Ho).
  exists x', out. split; [exact H |]. split; [exact Hv | exact Ho].
Defined.

Lemma gain_scales_output_witness :
  exists o1 o2 x1,
    adsr_perform pow_int 3 (set_gain scenario_started 1) = Some (x1, o1) /\
    adsr_perform pow_int 3 (set_gain scenario_started 0.5)
      = Some (set_gain x1 0.5, o2) /\
    Forall2 (fun a b => a * 0.5 == b * 1) o1 o2.
Proof.
  destruct (adsr_perform pow_int 3 (set_gain scenario_started 1))
    as [[x1 o1] |] eqn:Hrun; [| vm_compute in Hrun; discriminate Hrun].
  destruct (gain_scales_output pow_int 3 scenario_started 1 0.5 x1 o1 Hrun)
    as (o2 & Hrun2 & Hrel).
  exists o1, o2, x1. repeat split; assumption.
Defined.

(** The scenario on an object created with argument 0, which starts from
    silence, at envelope value 0.5. *)
Definition scenario_silence : t_adsr_tilde :=
  set_currentEnv (dispatch_all (adsr_new 0) scenario_messages) 0.5.

Lemma startup_ramp_witness :
  startupPhaseSamples scenario_silence = 132%Z /\
  phase_curve pow_int (adsr_trigger_start scenario_silence) 0 == 0.5 /\
  phase_curve pow_int (adsr_trigger_start scenario_silence) 66 == 0.25.
Proof.
  destruct (startup_ramp pow_int scenario_silence
              ltac:(vm_compute; reflexivity) ltac:(vm_compute; congruence)
              ltac:(vm_compute; congruence))
    as (_ & Hcurve & _ & H0).
  split; [reflexivity |]. split; [exact H0 |].
  rewrite Hcurve. vm_compute. reflexivity.
Defined.

Lemma decay_ramp_witness :
  phase_curve pow_int (enter_phase scenario_configured Decay) 0 == 1 /\
  phase_curve pow_int (enter_phase scenario_configured Decay) 2205 == 0.85.
Proof.
  destruct (decay_ramp pow_int (enter_phase scenario_configured Decay)
              ltac:(vm_compute; reflexivity) ltac:(vm_compute; reflexivity)
              ltac:(vm_compute; congruence) ltac:(vm_compute; congruence))
    as (_ & Hcurve & _ & _ & H0).
  split; [exact H0 |].
  rewrite Hcurve. vm_compute. reflexivity.
Defined.

(** * The first iteration of the design

    [src/adsr~.cpp] is the earlier iteration: five phases and no Startup,
    one [switch] in [adsr_perform] instead of a function pointer, no gain,
    and a Release whose progress is the counter over the count.  It is
    embedded with the same conventions, under its own names. *)

Module V1.

(** [enum class t_adsr_phase]. *)
Inductive t_adsr_phase : Type :=
  | Idle
  | Attack
  | Decay
  | Sustain
  | Release.

(** [struct t_adsr_tilde] of the first iteration, without the two fields of
    the host. *)
Record t_adsr_tilde : Type := mk_adsr {
  phase : t_adsr_phase;
  samplerate : Q;
  attackTime : Q;
  decayTime : Q;
  sustainLevel : Q;
  releaseTime : Q;
  attackShape : Q;
  releaseShape : Q;
  currentEnv : Q;
  releaseStartEnv : Q;
  attackPhaseSamples : Z;
  decayPhaseSamples : Z;
  releasePhaseSamples : Z;
  currentSample : Z
}.

Definition set_phase (x : t_adsr_tilde) (v : t_adsr_phase) : t_adsr_tilde :=
  {| phase := v; samplerate := samplerate x; attackTime := attackTime x;
     decayTime := decayTime x; sustainLevel := sustainLevel x;
     releaseTime := releaseTime x; attackShape := attackShape x;
     releaseShape := releaseShape x; currentEnv := currentEnv x;
     releaseStartEnv := releaseStartEnv x;
     attackPhaseSamples := attackPhaseSamples x;
     decayPhaseSamples := decayPhaseSamples x;
     releasePhaseSamples := releasePhaseSamples x;
     currentSample := currentSample x |}.

Definition set_samplerate (x : t_adsr_tilde) (v : Q) : t_adsr_tilde :=
  {| phase := phase x; samplerate := v; attackTime := attackTime x;
     decayTime := decayTime x; sustainLevel := sustainLevel x;
     releaseTime := releaseTime x; attackShape := attackShape x;
     releaseShape := releaseShape x; currentEnv := currentEnv x;
     releaseStartEnv := releaseStartEnv x;
     attackPhaseSamples := attackPhaseSamples x;
     decayPhaseSamples := decayPhaseSamples x;
     releasePhaseSamples := releasePhaseSamples x;
     currentSample := currentSample x |}.

Definition set_attackTime (x : t_adsr_tilde) (v : Q) : t_adsr_tilde :=
  {| phase := phase x; samplerate := samplerate x; attackTime := v;
     decayTime := decayTime x; sustainLevel := sustainLevel x;
     releaseTime := releaseTime x; attackShape := attackShape x;
     releaseShape := releaseShape x; currentEnv := currentEnv x;
     releaseStartEnv := releaseStartEnv x;
     attackPhaseSamples := attackPhaseSamples x;
     decayPhaseSamples := decayPhaseSamples x;
     releasePhaseSamples := releasePhaseSamples x;
     currentSample := currentSample x |}.

Definition set_decayTime (x : t_adsr_tilde) (v : Q) : t_adsr_tilde :=
  {| phase := phase x; samplerate := samplerate x; attackTime := attackTime x;
     decayTime := v; sustainLevel := sustainLevel x;
     releaseTime := releaseTime x; attackShape := attackShape x;
     releaseShape := releaseShape x; currentEnv := currentEnv x;
     releaseStartEnv := releaseStartEnv x;
     attackPhaseSamples := attackPhaseSamples x;
     decayPhaseSamples := decayPhaseSamples x;
     releasePhaseSamples := releasePhaseSamples x;
     currentSample := currentSample x |}.

Definition set_sustainLevel (x : t_adsr_tilde) (v : Q) : t_adsr_tilde :=
  {| phase := phase x; samplerate := samplerate x; attackTime := attackTime x;
     decayTime := decayTime x; sustainLevel := v; releaseTime := releaseTime x;
     attackShape := attackShape x; releaseShape := releaseShape x;
     currentEnv := currentEnv x; releaseStartEnv := releaseStartEnv x;
     attackPhaseSamples := attackPhaseSamples x;
     decayPhaseSamples := decayPhaseSamples x;
     releasePhaseSamples := releasePhaseSamples x;
     currentSample := currentSample x |}.

Definition set_releaseTime (x : t_adsr_tilde) (v : Q) : t_adsr_tilde :=
  {| phase := phase x; samplerate := samplerate x; attackTime := attackTime x;
     decayTime := decayTime x; sustainLevel := sustainLevel x;
     releaseTime := v; attackShape := attackShape x;
     releaseShape := releaseShape x; currentEnv := currentEnv x;
     releaseStartEnv := releaseStartEnv x;
     attackPhaseSamples := attackPhaseSamples x;
     decayPhaseSamples := decayPhaseSamples x;
     releasePhaseSamples := releasePhaseSamples x;
     currentSample := currentSample x |}.

Definition set_attackShape (x : t_adsr_tilde) (v : Q) : t_adsr_tilde :=
  {| phase := phase x; samplerate := samplerate x; attackTime := attackTime x;
     decayTime := decayTime x; sustainLevel := sustainLevel x;
     releaseTime := releaseTime x; attackShape := v;
     releaseShape := releaseShape x; currentEnv := currentEnv x;
     releaseStartEnv := releaseStartEnv x;
     attackPhaseSamples := attackPhaseSamples x;
     decayPhaseSamples := decayPhaseSamples x;
     releasePhaseSamples := releasePhaseSamples x;
     currentSample := currentSample x |}.

Definition set_releaseShape (x : t_adsr_tilde) (v : Q) : t_adsr_tilde :=
  {| phase := phase x; samplerate := samplerate x; attackTime := attackTime x;
     decayTime := decayTime x; sustainLevel := sustainLevel x;
     releaseTime := releaseTime x; attackShape := attackShape x;
     releaseShape := v; currentEnv := currentEnv x;
     releaseStartEnv := releaseStartEnv x;
     attackPhaseSamples := attackPhaseSamples x;
     decayPhaseSamples := decayPhaseSamples x;
     releasePhaseSamples := releasePhaseSamples x;
     currentSample := currentSample x |}.

Definition set_currentEnv (x : t_adsr_tilde) (v : Q) : t_adsr_tilde :=
  {| phase := phase x; samplerate := samplerate x; attackTime := attackTime x;
     decayTime := decayTime x; sustainLevel := sustainLevel x;
     releaseTime := releaseTime x; attackShape := attackShape x;
     releaseShape := releaseShape x; currentEnv := v;
     releaseStartEnv := releaseStartEnv x;
     attackPhaseSamples := attackPhaseSamples x;
     decayPhaseSamples := decayPhaseSamples x;
     releasePhaseSamples := releasePhaseSamples x;
     currentSample := currentSample x |}.

Definition set_releaseStartEnv (x : t_adsr_tilde) (v : Q) : t_adsr_tilde :=
  {| phase := phase x; samplerate := samplerate x; attackTime := attackTime x;
     decayTime := decayTime x; sustainLevel := sustainLevel x;
     releaseTime := releaseTime x; attackShape := attackShape x;
     releaseShape := releaseShape x; currentEnv := currentEnv x;
     releaseStartEnv := v; attackPhaseSamples := attackPhaseSamples x;
     decayPhaseSamples := decayPhaseSamples x;
     releasePhaseSamples := releasePhaseSamples x;
     currentSample := currentSample x |}.

Definition set_attackPhaseSamples (x : t_adsr_tilde) (v : Z) : t_adsr_tilde :=
  {| phase := phase x; samplerate := samplerate x; attackTime := attackTime x;
     decayTime := decayTime x; sustainLevel := sustainLevel x;
     releaseTime := releaseTime x; attackShape := attackShape x;
     releaseShape := releaseShape x; currentEnv := currentEnv x;
     releaseStartEnv := releaseStartEnv x; attackPhaseSamples := v;
     decayPhaseSamples := decayPhaseSamples x;
     releasePhaseSamples := releasePhaseSamples x;
     currentSample := currentSample x |}.

Definition set_decayPhaseSamples (x : t_adsr_tilde) (v : Z) : t_adsr_tilde :=
  {| phase := phase x; samplerate := samplerate x; attackTime := attackTime x;
     decayTime := decayTime x; sustainLevel := sustainLevel x;
     releaseTime := releaseTime x; attackShape := attackShape x;
     releaseShape := releaseShape x; currentEnv := currentEnv x;
     releaseStartEnv := releaseStartEnv x;
     attackPhaseSamples := attackPhaseSamples x; decayPhaseSamples := v;
     releasePhaseSamples := releasePhaseSamples x;
     currentSample := currentSample x |}.

Definition set_releasePhaseSamples (x : t_adsr_tilde) (v : Z) : t_adsr_tilde :=
  {| phase := phase x; samplerate := samplerate x; attackTime := attackTime x;
     decayTime := decayTime x; sustainLevel := sustainLevel x;
     releaseTime := releaseTime x; attackShape := attackShape x;
     releaseShape := releaseShape x; currentEnv := currentEnv x;
     releaseStartEnv := releaseStartEnv x;
     attackPhaseSamples := attackPhaseSamples x;
     decayPhaseSamples := decayPhaseSamples x; releasePhaseSamples := v;
     currentSample := currentSample x |}.

Definition set_currentSample (x : t_adsr_tilde) (v : Z) : t_adsr_tilde :=
  {| phase := phase x; samplerate := samplerate x; attackTime := attackTime x;
     decayTime := decayTime x; sustainLevel := sustainLevel x;
     releaseTime := releaseTime x; attackShape := attackShape x;
     releaseShape := releaseShape x; currentEnv := currentEnv x;
     releaseStartEnv := releaseStartEnv x;
     attackPhaseSamples := attackPhaseSamples x;
     decayPhaseSamples := decayPhaseSamples x;
     releasePhaseSamples := releasePhaseSamples x; currentSample := v |}.
(** [enter_phase]. *)
Definition enter_phase (x : t_adsr_tilde) (newPhase : t_adsr_phase)
  : t_adsr_tilde :=
  let x := set_phase x newPhase in
  set_currentSample x 0.

(** [x->phase != Idle]. *)
Definition is_Idle (p : t_adsr_phase) : bool :=
  match p with
  | Idle => true
  | _ => false
  end.

(** [adsr_dsp], for a signal whose sample rate is [sr]. *)
Definition adsr_dsp (x : t_adsr_tilde) (sr : Q) : t_adsr_tilde :=
  set_samplerate x sr.

(** [adsr_trigger_start]. *)
Definition adsr_trigger_start (x : t_adsr_tilde) : t_adsr_tilde :=
  let x := set_currentSample x 0 in
  let x := set_currentEnv x 0 in
  enter_phase x Attack.

(** [adsr_trigger_stop]. *)
Definition adsr_trigger_stop (x : t_adsr_tilde) : t_adsr_tilde :=
  if negb (is_Idle (phase x)) then
    let x := set_releaseStartEnv x (currentEnv x) in
    enter_phase x Release
  else x.

Definition adsr_attack (x : t_adsr_tilde) (f : Q) : t_adsr_tilde :=
  let x := set_attackTime x (clamp f 0 10000) in
  set_attackPhaseSamples x
    (Z.max 1 (static_cast_int ((attackTime x / 1000) * samplerate x))).

Definition adsr_decay (x : t_adsr_tilde) (f : Q) : t_adsr_tilde :=
  let x := set_decayTime x (clamp f 0 10000) in
  set_decayPhaseSamples x
    (Z.max 1 (static_cast_int ((decayTime x / 1000) * samplerate x))).

Definition adsr_release (x : t_adsr_tilde) (f : Q) : t_adsr_tilde :=
  let x := set_releaseTime x (clamp f 0 10000) in
  set_releasePhaseSamples x
    (Z.max 1 (static_cast_int ((releaseTime x / 1000) * samplerate x))).

Definition adsr_sustain (x : t_adsr_tilde) (f : Q) : t_adsr_tilde :=
  set_sustainLevel x (clamp f 0 1).

Definition adsr_attackshape (x : t_adsr_tilde) (f : Q) : t_adsr_tilde :=
  set_attackShape x (clamp f 0.01 10).

Definition adsr_releaseshape (x : t_adsr_tilde) (f : Q) : t_adsr_tilde :=
  set_releaseShape x (clamp f 0.01 10).

(** The object as [pd_new] hands it to the constructor, zero-filled. *)
Definition pd_new : t_adsr_tilde :=
  {| phase := Idle; samplerate := 0; attackTime := 0; decayTime := 0;
     sustainLevel := 0; releaseTime := 0; attackShape := 0; releaseShape := 0;
     currentEnv := 0; releaseStartEnv := 0; attackPhaseSamples := 0;
     decayPhaseSamples := 0; releasePhaseSamples := 0; currentSample := 0 |}.

(** [adsr_new]. *)
Definition adsr_new : t_adsr_tilde :=
  let x := pd_new in
  let x := set_samplerate x 44100 in
  let x := set_attackTime x 0.01 in
  let x := set_decayTime x 0.1 in
  let x := set_sustainLevel x 0.7 in
  let x := set_releaseTime x 0.2 in
  let x := set_attackShape x 1 in
  let x := set_releaseShape x 1 in
  let x := set_currentEnv x 0 in
  set_phase x Idle.

Section Render.

(** [pow] on doubles. *)
Variable pow : Q -> Q -> Q.

(** [shaped_progress]. *)
Definition shaped_progress (p shape : Q) : Q :=
  if Qeq_bool shape 1 then p else pow p shape.

(** One turn of the loop of [adsr_perform]: the [switch] on the phase, then
    the assignment of [env] to [currentEnv]. *)
Definition perform_sample (x : t_adsr_tilde) : option t_adsr_tilde :=
  match phase x with
  | Attack =>
      p <- int_div (currentSample x) (attackPhaseSamples x) ;;
      let env := shaped_progress p (attackShape x) in
      let x := set_currentSample x (currentSample x + 1)%Z in
      let x :=
        if (attackPhaseSamples x <=? currentSample x)%Z
        then enter_phase x Decay else x in
      ret (set_currentEnv x env)
  | Decay =>
      p <- int_div (currentSample x) (decayPhaseSamples x) ;;
      let env := (1 - p) * (1 - sustainLevel x) + sustainLevel x in
      let x := set_currentSample x (currentSample x + 1)%Z in
      let x :=
        if (decayPhaseSamples x <=? currentSample x)%Z
        then enter_phase x Sustain else x in
      ret (set_currentEnv x env)
  | Sustain =>
      let env := sustainLevel x in
      ret (set_currentEnv x env)
  | Release =>
      p <- int_div (currentSample x) (releasePhaseSamples x) ;;
      let env := shaped_progress (1 - p) (releaseShape x) * releaseStartEnv x in
      let x := set_currentSample x (currentSample x + 1)%Z in
      let x :=
        if (releasePhaseSamples x <=? currentSample x)%Z
        then enter_phase x Idle else x in
      ret (set_currentEnv x env)
  | Idle =>
      ret (set_currentEnv x 0)
  end.

(** [adsr_perform] for a block of [n] samples: the object after the block
    and the samples written, first sample first. *)
Fixpoint adsr_perform (n : nat) (x : t_adsr_tilde)
  : option (t_adsr_tilde * list Q) :=
  match n with
  | O => ret (x, [])
  | S n' =>
      x1 <- perform_sample x ;;
      r <- adsr_perform n' x1 ;;
      ret (fst r, currentEnv x1 :: snd r)
  end.

(** When a turn of the loop returns no value. *)
Lemma v1_perform_sample_none_iff (x : t_adsr_tilde) :
  perform_sample x = None <->
  match phase x with
  | Attack => attackPhaseSamples x = 0%Z
  | Decay => decayPhaseSamples x = 0%Z
  | Release => releasePhaseSamples x = 0%Z
  | Sustain | Idle => False
  end.
Proof.
  unfold perform_sample, ret, int_div.
  destruct (phase x);
    try (split; [discriminate | contradiction]);
    match goal with
    | |- context [(?d =? 0)%Z] => destruct (Z.eqb_spec d 0) as [Hd | Hd]
    end; cbn [bind];
    (split; [first [intros _; exact Hd | discriminate]
            | first [reflexivity | intros; contradiction]]).
Qed.

(** A sample of the first iteration fails exactly when the count of the
    phase in progress is 0; a Release of one sample is rendered. *)
Theorem v1_perform_sample_fails_iff (x : t_adsr_tilde) :
  perform_sample x = None <->
  match phase x with
  | Attack => attackPhaseSamples x = 0%Z
  | Decay => decayPhaseSamples x = 0%Z
  | Release => releasePhaseSamples x = 0%Z
  | Sustain | Idle => False
  end.
Proof.
  exact (v1_perform_sample_none_iff x).
Qed.

Lemma v1_perform_sample_counts (x x' : t_adsr_tilde) :
  perform_sample x = Some x' ->
  attackPhaseSamples x' = attackPhaseSamples x /\
  decayPhaseSamples x' = decayPhaseSamples x /\
  releasePhaseSamples x' = releasePhaseSamples x.
Proof.
  unfold perform_sample, ret. intros H.
  destruct (phase x);
    try match type of H with
        | bind ?m _ = Some _ =>
            destruct m; [cbn [bind] in H | discriminate H]
        end;
    injection H as <-;
    try match goal with
        | |- context [if ?c then _ else _] => destruct c
        end; repeat split.
Qed.

(** Once the three counts are at least 1, as every time setter leaves
    them, a block of any size is rendered without a division by zero and
    writes one sample per requested sample. *)
Theorem v1_adsr_perform_safe (n : nat) :
  forall x,
    (1 <= attackPhaseSamples x)%Z -> (1 <= decayPhaseSamples x)%Z ->
    (1 <= releasePhaseSamples x)%Z ->
    exists x' out, adsr_perform n x = Some (x', out) /\ length out = n.
Proof.
  induction n as [| n IH]; intros x Ha Hd Hr.
  - exists x, []. split; reflexivity.
  - destruct (perform_sample x) as [x1 |] eqn:Hstep.
    + destruct (v1_perform_sample_counts x x1 Hstep) as (Ea & Ed & Er).
      destruct (IH x1) as (x' & out & Hrun & Hlen); [lia | lia | lia |].
      exists x', (currentEnv x1 :: out).
      split; [cbn [adsr_perform]; rewrite Hstep; cbn [bind]; rewrite Hrun;
              reflexivity |].
      cbn. now rewrite Hlen.
    + exfalso. apply v1_perform_sample_none_iff in Hstep.
      destruct (phase x); try lia; contradiction.
Qed.

(** In the first iteration Start sets the envelope value to 0 and enters
    Attack, and Stop takes effect in every phase but Idle, Release
    included: it captures the current value and enters Release with the
    counter 0, so a Stop during a release starts the release again from the
    value it has reached.  A second Stop right after changes nothing more. *)
Theorem v1_triggers (x : t_adsr_tilde) :
  (phase (adsr_trigger_start x) = Attack /\
   currentEnv (adsr_trigger_start x) = 0 /\
   currentSample (adsr_trigger_start x) = 0%Z) /\
  match phase x with
  | Idle => adsr_trigger_stop x = x
  | Attack | Decay | Sustain | Release =>
      phase (adsr_trigger_stop x) = Release /\
      releaseStartEnv (adsr_trigger_stop x) = currentEnv x /\
      currentEnv (adsr_trigger_stop x) = currentEnv x /\
      currentSample (adsr_trigger_stop x) = 0%Z
  end /\
  adsr_trigger_stop (adsr_trigger_stop x) = adsr_trigger_stop x.
Proof.
  split; [repeat split |].
  unfold adsr_trigger_stop.
  destruct x as [ph sr at_ dt sl rt ash rsh ce rse aps dps rps cs].
  destruct ph; cbn; repeat split.
Qed.

(** With the linear release shape the Release sample at counter [c] is the
    start value times [1 - c / N]; the last one, at [c = N - 1], is the
    start value over [N], not 0, and enters Idle. *)
Theorem v1_release_last_sample (x : t_adsr_tilde) :
  phase x = Release -> Qeq_bool (releaseShape x) 1 = true ->
  (1 <= releasePhaseSamples x)%Z ->
  currentSample x = (releasePhaseSamples x - 1)%Z ->
  exists x',
    perform_sample x = Some x' /\ phase x' = Idle /\
    currentEnv x' == releaseStartEnv x / inject_Z (releasePhaseSamples x).
Proof.
  intros Hph Hshape Hn Hc. unfold perform_sample. rewrite Hph.
  rewrite int_div_some by lia. cbn [bind].
  cbn [currentSample set_currentSample releasePhaseSamples].
  destruct (Z.leb_spec (releasePhaseSamples x) (currentSample x + 1)); [| lia].
  eexists. split; [reflexivity |]. split; [reflexivity |].
  cbn. unfold shaped_progress. rewrite Hshape, Hc.
  unfold Z.sub. rewrite inject_Z_plus.
  change (inject_Z (- (1))%Z) with (-1 # 1). field.
  intros H'. rewrite <- (Qfloor_Z (releasePhaseSamples x)), H' in Hn.
  cbn in Hn. lia.
Qed.

End Render.

End V1.

(** ** The first iteration at concrete inputs *)

(** An object of the first iteration with attack 10 ms, decay 100 ms and
    release 0 ms, started and stopped. *)
Definition v1_stopped : V1.t_adsr_tilde :=
  V1.adsr_trigger_stop
    (V1.adsr_trigger_start
       (V1.adsr_release (V1.adsr_decay (V1.adsr_attack V1.adsr_new 10) 100) 0)).

(** An object of the first iteration with release 1 ms (44 samples), at the
    last sample of a release from 0.5. *)
Definition v1_releasing : V1.t_adsr_tilde :=
  V1.set_currentSample
    (V1.adsr_trigger_stop
       (V1.set_currentEnv
          (V1.adsr_trigger_start (V1.adsr_release V1.adsr_new 1)) 0.5)) 43.

Lemma v1_adsr_perform_safe_witness :
  V1.releasePhaseSamples v1_stopped = 1%Z /\
  exists x' out,
    V1.adsr_perform pow_int 100 v1_stopped = Some (x', out) /\
    length out = 100%nat.
Proof.
  split; [reflexivity |].
  exact (V1.v1_adsr_perform_safe pow_int 100 v1_stopped
           ltac:(vm_compute; congruence) ltac:(vm_compute; congruence)
           ltac:(vm_compute; congruence)).
Defined.

Lemma v1_release_last_sample_witness :
  exists x',
    V1.perform_sample pow_int v1_releasing = Some x' /\
    V1.phase x' = V1.Idle /\
    V1.currentEnv x'
      == V1.releaseStartEnv v1_releasing
         / inject_Z (V1.releasePhaseSamples v1_releasing).
Proof.
  exact (V1.v1_release_last_sample pow_int v1_releasing
           ltac:(vm_compute; reflexivity) ltac:(vm_compute; reflexivity)
           ltac:(vm_compute; congruence) ltac:(vm_compute; reflexivity)).
Defined.
